(** * Bucketed sequence-to-sequence drivers: data loading, training loop
      bookkeeping and decoding

    A shallow embedding of the orchestration code of
    [code/seq2seq/translate.py] (the flat article->title model) and
    [code/seq3seq/translate.py] (the hierarchical, sentence-aware model),
    with the properties of the data loaders, the bucket selection, the
    learning-rate schedule and the decode post-processing, and of the
    epoch loop of [code/LSTM.py] (the language model).

    Conventions.
    - Python integers are [Z]; list lengths and indices are [nat].
    - Python floats are the kernel's binary64 floats ([PrimFloat.float]),
      with their comparisons, sum and product.
    - A Python exception is the [Raise] case of [result].
    - A text file is its content, a [string]; an open file is the list of
      the lines that [readline] has still to return.
    - Of what is printed, only the perplexity reported at a checkpoint is
      kept; wall-clock measurements are inputs. *)

From Stdlib Require Import ZArith String Ascii Floats Lia Bool DecimalString.
From stdpp Require Import base list.
From Stdlib Require Uint63.

#[local] Set Warnings "-inexact-float".

Local Open Scope Z_scope.

(** ** Exceptions and results *)

Inductive exn : Type :=
| ValueError
| IndexError
| OverflowError
| AttributeError
| ZeroDivisionError
| TypeError
| NameError (name : string).

Inductive result (A : Type) : Type :=
| Ok (a : A)
| Raise (e : exn).

Arguments Ok {A} a.
Arguments Raise {A} e.

#[global] Instance result_ret : MRet result := fun A a => Ok a.

#[global] Instance result_bind : MBind result :=
  fun A B f m => match m with Ok a => f a | Raise e => Raise e end.

#[global] Instance result_fmap : FMap result :=
  fun A B f m => match m with Ok a => Ok (f a) | Raise e => Raise e end.

Definition raises {A : Type} (m : result A) : Prop :=
  match m with Ok _ => False | Raise _ => True end.

(** ** The Python built-ins the drivers use *)

Module Py.

(** *** Strings *)

(** The characters [str.split()] treats as white space (the [isspace] set
    of byte strings: space, tab, line feed, vertical tab, form feed and
    carriage return). *)
Definition is_space (c : ascii) : bool :=
  let n := nat_of_ascii c in
  (n =? 32)%nat || ((9 <=? n)%nat && (n <=? 13)%nat).

Definition is_empty (s : string) : bool :=
  match s with EmptyString => true | String _ _ => false end.

(** Truth value of a string: the empty string is false. *)
Definition truthy (s : string) : bool := negb (is_empty s).

Definition snoc (s : string) (c : ascii) : string :=
  (s ++ String c EmptyString)%string.

(** [s.split()]: the maximal runs of non-space characters of [s], in
    order; [cur] is the run being read. *)
Fixpoint split_from (cur s : string) : list string :=
  match s with
  | EmptyString => if is_empty cur then [] else [cur]
  | String c s' =>
      if is_space c
      then (if is_empty cur then split_from EmptyString s'
            else cur :: split_from EmptyString s')
      else split_from (snoc cur c) s'
  end.

Definition split (s : string) : list string := split_from EmptyString s.

(** [s.split(sep)] for a non-empty [sep]: [s] is cut at the occurrences of
    [sep], found from the left and not overlapping; empty pieces are kept.
    [skip] counts the characters of an occurrence still to be passed. *)
Fixpoint split_sep_from (sep : string) (skip : nat) (cur s : string)
  : list string :=
  match s with
  | EmptyString => [cur]
  | String c s' =>
      match skip with
      | S k => split_sep_from sep k cur s'
      | O =>
          if String.prefix sep s
          then cur :: split_sep_from sep (Nat.pred (String.length sep))
                        EmptyString s'
          else split_sep_from sep O (snoc cur c) s'
      end
  end.

Definition split_sep (sep s : string) : result (list string) :=
  if is_empty sep then Raise ValueError
  else Ok (split_sep_from sep O EmptyString s).

(** [int(tok)] on a token without white space: an optional sign followed
    by decimal digits; anything else raises [ValueError]. *)
Definition digit_of (c : ascii) : option Z :=
  let n := nat_of_ascii c in
  if ((48 <=? n)%nat && (n <=? 57)%nat) then Some (Z.of_nat (n - 48))
  else None.

Fixpoint digits_from (acc : Z) (s : string) : option Z :=
  match s with
  | EmptyString => Some acc
  | String c s' =>
      match digit_of c with
      | Some d => digits_from (10 * acc + d) s'
      | None => None
      end
  end.

Definition unsigned_of (s : string) : option Z :=
  if is_empty s then None else digits_from 0 s.

Definition int (tok : string) : result Z :=
  let parsed :=
    match tok with
    | String "-" s' => Z.opp <$> unsigned_of s'
    | String "+" s' => unsigned_of s'
    | _ => unsigned_of tok
    end in
  match parsed with Some z => Ok z | None => Raise ValueError end.

(** [str(n)] for an integer. *)
Definition str (n : Z) : string := NilZero.string_of_int (Z.to_int n).

(** [[f(x) for x in l]] for an [f] that may raise: the first exception,
    in list order, is the one raised. *)
Fixpoint map_result {A B : Type} (f : A -> result B) (l : list A)
  : result (list B) :=
  match l with
  | [] => Ok []
  | x :: l' =>
      match f x with
      | Ok y =>
          match map_result f l' with
          | Ok ys => Ok (y :: ys)
          | Raise e => Raise e
          end
      | Raise e => Raise e
      end
  end.

(** *** Files *)

(** The lines of a file, each with its line feed; a last line without a
    line feed is a line too. These are the successive values of
    [readline], which returns the empty string once they are used up. *)
Fixpoint lines_from (cur s : string) : list string :=
  match s with
  | EmptyString => if is_empty cur then [] else [cur]
  | String c s' =>
      if Ascii.eqb c "010" then snoc cur c :: lines_from EmptyString s'
      else lines_from (snoc cur c) s'
  end.

Definition lines (content : string) : list string :=
  lines_from EmptyString content.

(** *** Lists *)

(** [min(l)] over integers indices: the first least element, [ValueError]
    on the empty list. *)
Definition min (l : list nat) : result nat :=
  match l with
  | [] => Raise ValueError
  | x :: l' => Ok (fold_left (fun m y => if (y <? m)%nat then y else m) l' x)
  end.

(** [max(l)] over floats: the running maximum is replaced by an item that
    compares greater; [ValueError] on the empty list. *)
Definition max (l : list float) : result float :=
  match l with
  | [] => Raise ValueError
  | x :: l' =>
      Ok (fold_left (fun m y => if PrimFloat.ltb m y then y else m) l' x)
  end.

(** [l[-n:]]: the last [n] elements, the whole list if it is shorter. *)
Definition last_n {A : Type} (n : nat) (l : list A) : list A :=
  drop (length l - n) l.

(** [x in l] and [l.index(x)] over integers. *)
Fixpoint contains (x : Z) (l : list Z) : bool :=
  match l with
  | [] => false
  | y :: l' => (y =? x) || contains x l'
  end.

Fixpoint index (x : Z) (l : list Z) : result nat :=
  match l with
  | [] => Raise ValueError
  | y :: l' => if y =? x then Ok O else S <$> index x l'
  end.

(** [enumerate(l)], counting from [k]. *)
Fixpoint enumerate_from {A : Type} (k : nat) (l : list A)
  : list (nat * A) :=
  match l with
  | [] => []
  | x :: l' => (k, x) :: enumerate_from (S k) l'
  end.

Definition enumerate {A : Type} (l : list A) : list (nat * A) :=
  enumerate_from O l.

(** [sorted(l, key=lambda tup: tup[0], reverse=True)]: a stable sort on
    the first component, greatest first. An element goes in after the
    elements whose key is at least its own. *)
Fixpoint insert_desc {A : Type} (x : nat * A) (l : list (nat * A))
  : list (nat * A) :=
  match l with
  | [] => [x]
  | y :: l' =>
      if (x.1 <=? y.1)%nat then y :: insert_desc x l' else x :: y :: l'
  end.

Definition sorted_desc {A : Type} (l : list (nat * A)) : list (nat * A) :=
  foldr insert_desc [] l.

(** [l[i].append(x)] on a list of lists: [IndexError] out of range. *)
Definition append_at {A : Type} (i : nat) (x : A) (ls : list (list A))
  : result (list (list A)) :=
  match ls !! i with
  | Some l => Ok (<[i := l ++ [x]]> ls)
  | None => Raise IndexError
  end.

End Py.

(** ** The flat model: [code/seq2seq/translate.py] *)

Module Seq2Seq.

(** An example is a pair [[source_ids, target_ids]]; a data set holds one
    list of examples for each bucket. *)
Definition example : Type := list Z * list Z.
Definition data_set : Type := list (list example).

(** Only one bucket is in use; articles and titles are padded to fit. *)
Definition _buckets : list (nat * nat) := [(200, 48)%nat].

Section ReadData.

(** [data_utils.EOS_ID]. *)
Variable EOS_ID : Z.

(** [not max_size or counter < max_size]; [None] and [0] set no limit. *)
Definition within_limit (max_size : option Z) (counter : Z) : bool :=
  match max_size with
  | None => true
  | Some m => (m =? 0) || (counter <? m)
  end.

(** The token ids of one line pair. *)
Definition read_pair (truncate_in truncate_out : nat)
    (source target : string) : result example :=
  source_ids ← Py.map_result Py.int (take truncate_in (Py.split source));
  target_ids ← Py.map_result Py.int (take truncate_out (Py.split target));
  Ok (source_ids, target_ids ++ [EOS_ID]).

(** The [while] loop: [source_file] and [target_file] hold the lines
    that [readline] has still to return, the first of each being the pair
    just read; a file that is used up stands for the empty line read at
    its end, which stops the loop. *)
Fixpoint read_loop (max_size : option Z) (truncate_in truncate_out : nat)
    (source_file target_file : list string) (counter : Z)
    (data : data_set) : result data_set :=
  match source_file, target_file with
  | source :: source_file', target :: target_file' =>
      if Py.truthy source && Py.truthy target
         && within_limit max_size counter
      then
        pair ← read_pair truncate_in truncate_out source target;
        data' ← Py.append_at 0 pair data;
        read_loop max_size truncate_in truncate_out
          source_file' target_file' (counter + 1) data'
      else Ok data
  | _, _ => Ok data
  end.

Definition read_data_with (buckets : list (nat * nat))
    (source_content target_content : string) (max_size : option Z)
    (truncate_in truncate_out : nat) : result data_set :=
  read_loop max_size truncate_in truncate_out
    (Py.lines source_content) (Py.lines target_content) 0
    (replicate (length buckets) []).

Definition read_data := read_data_with _buckets.

End ReadData.

End Seq2Seq.

(** ** The hierarchical model: [code/seq3seq/translate.py] *)

Module Seq3Seq.

(** The source of an example is a list of sentence rows. *)
Definition example : Type := list (list Z) * list Z.
Definition data_set : Type := list (list example).

Definition _buckets : list (nat * nat) :=
  [(1, 48); (5, 48); (7, 48); (10, 48); (15, 48); (20, 48)]%nat.

Section ReadData.

(** [data_utils.EOS_ID] and [FLAGS.max_sent]. *)
Variable EOS_ID : Z.
Variable max_sent : nat.

Definition within_limit (max_size : option Z) (counter : Z) : bool :=
  match max_size with
  | None => true
  | Some m => (m =? 0) || (counter <? m)
  end.

(** The sentence length first, then the sentence cut at [max_sent] and
    padded with zeros. *)
Definition sentence_row (sent : list Z) : list Z :=
  [Z.of_nat (Nat.min (length sent) max_sent)]
  ++ take max_sent sent
  ++ replicate (max_sent - length sent) 0.

(** The sentence rows and the target ids of one article. *)
Definition read_article (source target : string) : result example :=
  source_strings ←
    Py.split_sep (String " " (Py.str EOS_ID ++ " ")%string) source;
  source_sents ←
    Py.map_result (fun sent => Py.map_result Py.int (Py.split sent))
      source_strings;
  let source_ids := map sentence_row source_sents in
  target_ids ← Py.map_result Py.int (Py.split target);
  Ok (source_ids, target_ids ++ [EOS_ID]).

(** The [for] loop over the buckets, which stops at the first bucket
    that takes the article. *)
Fixpoint trim_into (order : list (nat * (nat * nat)))
    (source_ids : list (list Z)) (target_ids : list Z)
    (data : data_set) : result data_set :=
  match order with
  | [] => Ok data
  | (bucket_id, (source_size, target_size)) :: order' =>
      if (source_size <? length source_ids)%nat
         && (length target_ids <? target_size)%nat
      then Py.append_at bucket_id
             (take source_size source_ids, target_ids) data
      else trim_into order' source_ids target_ids data
  end.

(** Trim the article to fit the largest bucket that it does not fit
    into. *)
Definition store_article (buckets : list (nat * nat))
    (article : example) (data : data_set) : result data_set :=
  trim_into (Py.sorted_desc (Py.enumerate buckets))
    article.1 article.2 data.

Fixpoint read_loop (buckets : list (nat * nat)) (max_size : option Z)
    (source_file target_file : list string) (counter : Z)
    (data : data_set) : result data_set :=
  match source_file, target_file with
  | source :: source_file', target :: target_file' =>
      if Py.truthy source && Py.truthy target
         && within_limit max_size counter
      then
        article ← read_article source target;
        data' ← store_article buckets article data;
        read_loop buckets max_size source_file' target_file'
          (counter + 1) data'
      else Ok data
  | _, _ => Ok data
  end.

Definition read_data_with (buckets : list (nat * nat))
    (source_content target_content : string) (max_size : option Z)
    : result data_set :=
  read_loop buckets max_size
    (Py.lines source_content) (Py.lines target_content) 0
    (replicate (length buckets) []).

Definition read_data := read_data_with _buckets.

End ReadData.

End Seq3Seq.

(** ** The training loop

    The bucket choice and the checkpoint block are written the same way in
    both [train] functions; they are modelled once. *)

Module Train.

(** What the loop observes of the model held by the session: the learning
    rate, how often [learning_rate_decay_op] was run, and the global steps
    at which a checkpoint was saved. *)
Record model_state : Type := {
  learning_rate : float;
  global_step : Z;
  decay_runs : nat;
  saved_at : list Z
}.

(** The variables of the loop. [reported] lists the perplexities printed
    so far. *)
Record loop_state : Type := {
  model : model_state;
  loss : float;
  current_step : Z;
  previous_losses : list float;
  reported : list float
}.

(** [[i for i in xrange(len(scale)) if scale[i] > r]]. *)
Definition above (scale : list float) (r : float) : list nat :=
  List.filter (fun i => match scale !! i with
                        | Some s => PrimFloat.ltb r s
                        | None => false
                        end)
              (seq 0 (length scale)).

(** The bucket of a draw [random_number_01]. *)
Definition choose_bucket (train_buckets_scale : list float)
    (random_number_01 : float) : result nat :=
  Py.min (above train_buckets_scale random_number_01).

Section Checkpoint.

(** [FLAGS.learning_rate_decay_factor]. *)
Variable learning_rate_decay_factor : float.

(** The C library's [exp], which [math.exp] calls. *)
Variable libm_exp : float -> float.

(** [math.exp]: a result that is not a number for an argument that is
    one is a domain error, an infinite result for a finite argument is
    an overflow. *)
Definition math_exp (x : float) : result float :=
  let r := libm_exp x in
  if PrimFloat.is_nan r && negb (PrimFloat.is_nan x) then Raise ValueError
  else if PrimFloat.is_infinity r && PrimFloat.is_finite x
  then Raise OverflowError
  else Ok r.

(** [math.exp(loss) if loss < 300 else float('inf')]. *)
Definition perplexity_of (loss : float) : result float :=
  if PrimFloat.ltb loss 300%float then math_exp loss
  else Ok PrimFloat.infinity.

(** Modelled from the spec: [learning_rate_decay_op] belongs to the
    model class, which is not part of the sources at hand; running it
    multiplies the learning rate by the fixed decay factor. *)
Definition learning_rate_decay_op (m : model_state) : model_state :=
  {| learning_rate :=
       PrimFloat.mul (learning_rate m) learning_rate_decay_factor;
     global_step := global_step m;
     decay_runs := S (decay_runs m);
     saved_at := saved_at m |}.

(** [len(previous_losses) > 2 and loss > max(previous_losses[-3:])]. *)
Definition no_improvement (previous_losses : list float) (loss : float)
  : result bool :=
  if (2 <? length previous_losses)%nat
  then worst ← Py.max (Py.last_n 3 previous_losses);
       Ok (PrimFloat.ltb worst loss)
  else Ok false.

(** Decrease the learning rate if no improvement was seen over the last
    three checkpoints, and record the loss. *)
Definition adjust_learning_rate (st : loop_state) : result loop_state :=
  decay ← no_improvement (previous_losses st) (loss st);
  Ok {| model := if decay : bool then learning_rate_decay_op (model st)
                 else model st;
        loss := loss st;
        current_step := current_step st;
        previous_losses := previous_losses st ++ [loss st];
        reported := reported st |}.

(** [model.saver.save(sess, checkpoint_path, global_step=...)]. *)
Definition save (m : model_state) : model_state :=
  {| learning_rate := learning_rate m;
     global_step := global_step m;
     decay_runs := decay_runs m;
     saved_at := saved_at m ++ [global_step m] |}.

(** The checkpoint block: report the perplexity, adjust the learning
    rate, save, and zero the loss. *)
Definition checkpoint (st : loop_state) : result loop_state :=
  perplexity ← perplexity_of (loss st);
  st1 ← adjust_learning_rate
          {| model := model st;
             loss := loss st;
             current_step := current_step st;
             previous_losses := previous_losses st;
             reported := reported st ++ [perplexity] |};
  Ok {| model := save (model st1);
        loss := 0%float;
        current_step := current_step st1;
        previous_losses := previous_losses st1;
        reported := reported st1 |}.

(** One training step: [model.step] adds one to the global step;
    [loss_share] is its [step_loss / FLAGS.steps_per_checkpoint]. *)
Definition step (loss_share : float) (st : loop_state) : loop_state :=
  {| model := {| learning_rate := learning_rate (model st);
                 global_step := global_step (model st) + 1;
                 decay_runs := decay_runs (model st);
                 saved_at := saved_at (model st) |};
     loss := PrimFloat.add (loss st) loss_share;
     current_step := current_step st + 1;
     previous_losses := previous_losses st;
     reported := reported st |}.

(** [a % b] on integers. *)
Definition py_mod (a b : Z) : result Z :=
  if b =? 0 then Raise ZeroDivisionError else Ok (a mod b).

(** One turn of the flat model's loop; a checkpoint is due every
    [steps_per_checkpoint] steps. The wall-clock budget that may end the
    loop after a checkpoint is left out. *)
Definition seq2seq_iteration (steps_per_checkpoint : Z)
    (train_buckets_scale : list float)
    (random_number_01 loss_share : float) (st : loop_state)
  : result loop_state :=
  bucket_id ← choose_bucket train_buckets_scale random_number_01;
  let st1 := step loss_share st in
  r ← py_mod (current_step st1) steps_per_checkpoint;
  if r =? 0 then checkpoint st1 else Ok st1.

(** One turn of the hierarchical model's loop; a checkpoint is due once
    an hour has passed, and ends the loop. The flag returned tells
    whether the loop goes on. *)
Definition seq3seq_iteration (train_buckets_scale : list float)
    (random_number_01 loss_share : float) (hour_passed : bool)
    (st : loop_state) : result (loop_state * bool) :=
  bucket_id ← choose_bucket train_buckets_scale random_number_01;
  let st1 := step loss_share st in
  if hour_passed then st2 ← checkpoint st1; Ok (st2, false)
  else Ok (st1, true).

End Checkpoint.

End Train.

(** ** Creating the model

    [create_model] ends the same way in both files. *)

Module Model.

(** What [tf.train.get_checkpoint_state] returns when the directory
    records a checkpoint. *)
Record CheckpointState : Type := { model_checkpoint_path : string }.

(** Where the parameters of a created model come from. *)
Inductive origin : Type :=
| Restored (path : string)
| Fresh.

Section CreateModel.

(** The parameters of a model. *)
Variable params : Type.

(** The training directory as the framework shows it:
    [tf.train.get_checkpoint_state(FLAGS.train_dir)] and
    [tf.gfile.Exists]. *)
Variable get_checkpoint_state : option CheckpointState.
Variable gfile_Exists : string -> bool.

(** [model.saver.restore], which may fail, and
    [tf.initialize_all_variables]. *)
Variable saver_restore : string -> result params.
Variable initialize_all_variables : params.

(** [ckpt and tf.gfile.Exists(ckpt.model_checkpoint_path)]. *)
Definition usable_checkpoint : option string :=
  match get_checkpoint_state with
  | Some ckpt =>
      if gfile_Exists (model_checkpoint_path ckpt)
      then Some (model_checkpoint_path ckpt)
      else None
  | None => None
  end.

Definition create_model : result (origin * params) :=
  match usable_checkpoint with
  | Some path => p ← saver_restore path; Ok (Restored path, p)
  | None => Ok (Fresh, initialize_all_variables)
  end.

End CreateModel.

End Model.

(** ** Decoding *)

Module Decode.

(** If there is an EOS symbol in the outputs, cut them at that point:
    [if EOS_ID in outputs: outputs = outputs[:outputs.index(EOS_ID)]]. *)
Definition cut_at_eos (EOS_ID : Z) (outputs : list Z) : result (list Z) :=
  if Py.contains EOS_ID outputs
  then k ← Py.index EOS_ID outputs; Ok (take k outputs)
  else Ok outputs.

(** *** The hierarchical model's [decode] *)

(** [[b for b in xrange(len(buckets)) if buckets[b][0] > n]]. *)
Definition roomy (buckets : list (nat * nat)) (n : nat) : list nat :=
  List.filter (fun b => match buckets !! b with
                        | Some bucket => (n <? bucket.1)%nat
                        | None => false
                        end)
              (seq 0 (length buckets)).

(** Which bucket does the input belong to? *)
Definition bucket_of (buckets : list (nat * nat)) (token_ids : list Z)
  : result nat :=
  Py.min (roomy buckets (length token_ids)).

(** One article: [greedy bucket_id token_ids] stands for the arg-maxes of
    the logits that the model returns for the one-element batch. *)
Definition decode_article (EOS_ID : Z)
    (greedy : nat -> list Z -> list Z) (token_ids : list Z)
  : result (list Z) :=
  bucket_id ← bucket_of Seq3Seq._buckets token_ids;
  cut_at_eos EOS_ID (greedy bucket_id token_ids).

(** *** The flat model's [decode]: the sampling loop *)

(** The values that the names of the sampling expression can hold. *)
Inductive value : Type :=
| Logits (row : list float)
| Batch (rows : list (list float))
| Opaque.

(** A scope binds names to values, the innermost binding first. *)
Definition scope : Type := list (string * value).

Fixpoint lookup_name (x : string) (sc : scope) : result value :=
  match sc with
  | [] => Raise (NameError x)
  | (y, v) :: sc' => if String.eqb x y then Ok v else lookup_name x sc'
  end.

Definition opaque (names : list string) : scope :=
  map (fun x => (x, Opaque)) names.

(** The names bound at module level (imports, flags, functions), and of
    the built-in scope those that the module uses. *)
Definition module_names : list string :=
  ["absolute_import"; "division"; "print_function"; "math"; "os";
   "random"; "sys"; "time"; "pdb"; "np"; "xrange"; "tf"; "data_utils";
   "seq2seq_model"; "FLAGS"; "_buckets"; "read_data"; "create_model";
   "train"; "decode"; "main";
   "__name__"; "int"; "float"; "len"; "map"; "min"; "max"; "str"; "sum";
   "print"]%string.

(** The names bound in [decode] when the sampling expression is reached,
    save [output_logits]. *)
Definition decode_names : list string :=
  ["articles_train"; "titles_train"; "_"; "sess"; "model"; "train_set";
   "article_vocab_path"; "title_vocab_path"; "article_vocab";
   "rev_title_vocab"; "bucket_id"; "encoder_inputs";
   "decoder_inputs_true"; "target_weights";
   "decoder_inputs_generated"]%string.

Definition sampling_scope (output_logits : list (list (list float)))
  : scope :=
  ("output_logits"%string,
    match output_logits with first :: _ => Batch first | [] => Opaque end)
  :: opaque decode_names ++ opaque module_names.

Section Sampling.

(** [tf.arg_max(np.random.multinomial(1, logit), 0)]: the word drawn
    for one entry. *)
Variable draw : value -> result Z.

(** The entries that [for logit in v] runs over. *)
Definition entries (v : value) : result (list value) :=
  match v with
  | Logits row => Ok (map (fun x => Logits [x]) row)
  | Batch rows => Ok (map Logits rows)
  | Opaque => Raise TypeError
  end.

(** [[draw(logit) for batch_logits in rows for logit in batch_logit]]:
    the inner iterable is the name [batch_logit], looked up anew for
    each row. *)
Fixpoint generated (sc : scope) (rows : list (list float))
  : result (list Z) :=
  match rows with
  | [] => Ok []
  | batch_logits :: rows' =>
      let sc' := ("batch_logits"%string, Logits batch_logits) :: sc in
      inner ← lookup_name "batch_logit" sc';
      logits ← entries inner;
      words ← Py.map_result draw logits;
      rest ← generated sc rows';
      Ok (words ++ rest)
  end.

(** [decoder_inputs_generated] is the array that [np.zeros_like]
    returned; arrays have no [append]. *)
Definition ndarray_append (a : list (list Z)) (row : list Z)
  : result (list (list Z)) :=
  Raise AttributeError.

(** One turn of the sampling loop, given the logits that [model.step]
    returned. *)
Definition sampling_turn (output_logits : list (list (list float)))
    (decoder_inputs_generated : list (list Z))
  : result (list (list Z)) :=
  match output_logits with
  | [] => Raise IndexError
  | first :: _ =>
      words ← generated (sampling_scope output_logits) first;
      ndarray_append decoder_inputs_generated words
  end.

(** [for _ in xrange(n)]: [step] stands for [model.step] on the words
    generated so far. *)
Fixpoint sampling_loop (n : nat)
    (step : list (list Z) -> list (list (list float)))
    (decoder_inputs_generated : list (list Z))
  : result (list (list Z)) :=
  match n with
  | O => Ok decoder_inputs_generated
  | S n' =>
      next ← sampling_turn (step decoder_inputs_generated)
               decoder_inputs_generated;
      sampling_loop n' step next
  end.

(** The sampling loop of bucket [bucket_id], which runs as many turns
    as the bucket has target positions. *)
Definition sample_bucket (bucket_id : nat)
    (step : list (list Z) -> list (list (list float)))
    (decoder_inputs_generated : list (list Z))
  : result (list (list Z)) :=
  match Seq2Seq._buckets !! bucket_id with
  | Some bucket => sampling_loop bucket.2 step decoder_inputs_generated
  | None => Raise IndexError
  end.

End Sampling.

End Decode.

(** ** Before and around the training loop *)

Module Loop.

(** An integer as a float, as [float(n)] and the division of an integer by
    a float make it. The integers at hand are counts of examples, below
    [2^63]. *)
Definition float_of_int (n : Z) : float :=
  PrimFloat.of_uint63 (Uint63.of_Z n).

(** [a / b] for an integer [a] and a float [b]. *)
Definition truediv (a : Z) (b : float) : result float :=
  if PrimFloat.eqb b 0 then Raise ZeroDivisionError
  else Ok (PrimFloat.div (float_of_int a) b).

(** [[len(train_set[b]) for b in xrange(len(_buckets))]]. *)
Definition train_bucket_sizes {A : Type} (buckets : list (nat * nat))
    (train_set : list (list A)) : result (list nat) :=
  Py.map_result
    (fun b => match train_set !! b with
              | Some examples => Ok (length examples)
              | None => Raise IndexError
              end)
    (seq 0 (length buckets)).

(** [[sum(sizes[:i + 1]) / train_total_size for i in xrange(len(sizes))]]
    with [train_total_size = float(sum(sizes))]. *)
Definition train_buckets_scale (train_bucket_sizes : list nat)
  : result (list float) :=
  let train_total_size :=
    float_of_int (Z.of_nat (sum_list train_bucket_sizes)) in
  Py.map_result
    (fun i => truediv (Z.of_nat (sum_list (take (S i) train_bucket_sizes)))
                train_total_size)
    (seq 0 (length train_bucket_sizes)).

(** The sizes and the scale of a training set, as [train] computes them
    once the data is read. *)
Definition scale_of {A : Type} (buckets : list (nat * nat))
    (train_set : list (list A)) : result (list float) :=
  sizes ← train_bucket_sizes buckets train_set;
  train_buckets_scale sizes.

(** What the hierarchical [train] does before its loop: read the data,
    then compute the scale. *)
Definition seq3seq_prepare (EOS_ID : Z) (max_sent : nat)
    (source_content target_content : string) (max_size : option Z)
  : result (Seq3Seq.data_set * list float) :=
  train_set ← Seq3Seq.read_data EOS_ID max_sent source_content
                target_content max_size;
  scale ← scale_of Seq3Seq._buckets train_set;
  Ok (train_set, scale).

(** The first turns of the flat model's loop, one for each pair of a draw
    and a share of loss. *)
Fixpoint seq2seq_turns (learning_rate_decay_factor : float)
    (libm_exp : float -> float) (steps_per_checkpoint : Z)
    (train_buckets_scale : list float) (turns : list (float * float))
    (st : Train.loop_state) : result Train.loop_state :=
  match turns with
  | [] => Ok st
  | (random_number_01, loss_share) :: turns' =>
      st' ← Train.seq2seq_iteration learning_rate_decay_factor libm_exp
              steps_per_checkpoint train_buckets_scale
              random_number_01 loss_share st;
      seq2seq_turns learning_rate_decay_factor libm_exp
        steps_per_checkpoint train_buckets_scale turns' st'
  end.

(** The turns of the hierarchical model's loop, one for each triple of a
    draw, a share of loss and whether an hour has passed by then; the loop
    ends with the first checkpoint. *)
Fixpoint seq3seq_turns (learning_rate_decay_factor : float)
    (libm_exp : float -> float) (train_buckets_scale : list float)
    (turns : list (float * float * bool)) (st : Train.loop_state)
  : result Train.loop_state :=
  match turns with
  | [] => Ok st
  | (random_number_01, loss_share, hour_passed) :: turns' =>
      match Train.seq3seq_iteration learning_rate_decay_factor libm_exp
              train_buckets_scale random_number_01 loss_share hour_passed st
      with
      | Ok (st', true) =>
          seq3seq_turns learning_rate_decay_factor libm_exp
            train_buckets_scale turns' st'
      | Ok (st', false) => Ok st'
      | Raise e => Raise e
      end
  end.

End Loop.

(** ** The language model: [code/LSTM.py] *)

Module LSTM.

(** What the TensorBoard side of an epoch keeps: the module's batch counter
    and the steps at which a summary was written. *)
Record board : Type := {
  batch_counter : Z;
  summaries : list Z
}.

(** The value that a float32 variable holds once a Python float is stored
    in it: the nearest binary32 number, ties to even, infinite beyond the
    binary32 range. [tf.Variable(learning_rate, trainable=False)] is such a
    variable, and [tf.assign] stores into it. *)
Definition float32 (x : float) : float :=
  match Prim2SF x with
  | S754_finite s m e => SF2Prim (SpecFloat.binary_round 24 128 s m e)
  | _ => x
  end.

Section Training.

(** The names that [hyperParams] gives, a module that is not among the
    sources: the two rates are taken to be Python floats, so that the
    variable made from [learning_rate] is a float32 one, and [decay_start]
    an integer. *)
Variable learning_rate : float.
Variable learning_decay : float.
Variable decay_start : Z.

(** [x ** n] for a float and an integer. *)
Variable py_pow : float -> Z -> float.

(** The costs that the session returns, with their sum and their division
    by an integer. *)
Variable num : Type.
Variable zero : num.
Variable add : num -> num -> num.
Variable div_int : num -> Z -> num.

(** [set_learning_rate]: what the float32 variable holds after the
    assignment of [value]. *)
Definition set_learning_rate (value : float) : float := float32 value.

(** [lr_decay_and_set]: the learning rate of the session after the call,
    [current] being the one before. The product is one of Python floats;
    the variable keeps it as a float32. *)
Definition lr_decay_and_set (epoch : Z) (current : float) : float :=
  if decay_start <? epoch
  then
    let decay := py_pow learning_decay (epoch - decay_start) in
    set_learning_rate (PrimFloat.mul learning_rate decay)
  else current.

(** The [for] loop of [run_epoch] over the costs of the batches from the
    one of index [k] on; [i] is the loop variable. *)
Fixpoint batch_loop (costs : list num) (k i : Z) (total_cost : num)
    (tb : board) : Z * num * board :=
  match costs with
  | [] => (i, total_cost, tb)
  | cost :: costs' =>
      let counter := batch_counter tb + 1 in
      batch_loop costs' (k + 1) k (add total_cost cost)
        {| batch_counter := counter;
           summaries := if counter mod 10 =? 0
                        then summaries tb ++ [counter]
                        else summaries tb |}
  end.

Definition run_epoch (costs : list num) (tb : board) : num * board :=
  let '(i, total_cost, tb') := batch_loop costs 0 0 zero tb in
  (div_int total_cost (i + 1), tb').

(** The epochs of [main] from the one numbered [i] on, given the costs of
    each; the result is the learning rate and the board at the end, and
    the cost of the last epoch, if any. *)
Fixpoint epochs (costs_of_epochs : list (list num)) (i : Z)
    (rate : float) (tb : board) (cost : option num)
  : float * board * option num :=
  match costs_of_epochs with
  | [] => (rate, tb, cost)
  | costs :: rest =>
      let rate' := lr_decay_and_set i rate in
      let '(cost', tb') := run_epoch costs tb in
      epochs rest (i + 1) rate' tb' (Some cost')
  end.

(** [main]: the session starts with the learning rate of [hyperParams],
    as the float32 variable holds it. *)
Definition main (costs_of_epochs : list (list num)) (tb : board)
  : float * board * option num :=
  epochs costs_of_epochs 0 (float32 learning_rate) tb None.

End Training.

End LSTM.

(** * The vocabulary of the properties *)

(** The loss exceeds the greatest of the three losses recorded last:
    [previous_losses] ends with three losses [a], [b], [c], and [loss] is
    greater than their maximum, taken as [max] takes it. *)
Definition exceeds_last_three (previous_losses : list float) (loss : float)
  : Prop :=
  exists earlier a b c,
    previous_losses = earlier ++ [a; b; c]
    /\ PrimFloat.ltb
         (let m := if PrimFloat.ltb a b then b else a in
          if PrimFloat.ltb m c then c else m)
         loss = true.

(** A stand-in for [exp] that is finite below 300. *)
Definition capped_exp (x : float) : float :=
  if PrimFloat.ltb x 300 then 1%float else PrimFloat.infinity.

(** The integers of a line, and of each line of a file. *)
Definition line_ids (line : string) : result (list Z) :=
  Py.map_result Py.int (Py.split line).

Definition file_ids (content : string) : result (list (list Z)) :=
  Py.map_result line_ids (Py.lines content).

(** Of the line pairs still to be read when [counter] pairs have been, those
    that [max_size] lets through. *)
Definition allowed {A : Type} (max_size : option Z) (counter : Z)
    (pairs : list A) : list A :=
  match max_size with
  | None => pairs
  | Some m => if m =? 0 then pairs else take (Z.to_nat (m - counter)) pairs
  end.

(** The example that the flat loader makes of the integers of a line
    pair. *)
Definition flat_example (EOS_ID : Z) (truncate_in truncate_out : nat)
    (source_ids target_ids : list Z) : Seq2Seq.example :=
  (take truncate_in source_ids, take truncate_out target_ids ++ [EOS_ID]).

(** The test of the loader's [for] loop: the article overflows the bucket's
    source capacity and its target fits below the target capacity. *)
Definition overflows (bucket : nat * nat) (article : Seq3Seq.example)
  : bool :=
  (bucket.1 <? length article.1)%nat && (length article.2 <? bucket.2)%nat.

(** What is stored of an article in a bucket. *)
Definition trimmed (bucket : nat * nat) (article : Seq3Seq.example)
  : Seq3Seq.example :=
  (take bucket.1 article.1, article.2).

(** Whether [sep] occurs in [s]. *)
Fixpoint occurs (sep s : string) : bool :=
  match s with
  | EmptyString => false
  | String _ s' => String.prefix sep s || occurs sep s'
  end.

(** The capacity predicates of a data set. [strictly_within] is the strict
    one of the loaders' documentation: an example of bucket [b] has a source
    and a target strictly shorter than the capacities of [b]. [trimmed_to]
    is the one of the hierarchical loader: the source fills the source
    capacity, the target is strictly shorter than the target capacity. *)
Definition strictly_within {A : Type} (buckets : list (nat * nat))
    (data : list (list (list A * list Z))) : Prop :=
  forall b bucket stored ex,
    buckets !! b = Some bucket -> data !! b = Some stored -> ex ∈ stored ->
    (length ex.1 < bucket.1)%nat /\ (length ex.2 < bucket.2)%nat.

Definition trimmed_to {A : Type} (buckets : list (nat * nat))
    (data : list (list (list A * list Z))) : Prop :=
  forall b bucket stored ex,
    buckets !! b = Some bucket -> data !! b = Some stored -> ex ∈ stored ->
    length ex.1 = bucket.1 /\ (length ex.2 < bucket.2)%nat.

(** No example lies in two buckets. *)
Definition buckets_disjoint {A : Type}
    (data : list (list (list A * list Z))) : Prop :=
  forall b b' stored stored' ex,
    data !! b = Some stored -> data !! b' = Some stored' ->
    ex ∈ stored -> ex ∈ stored' -> b = b'.

(** A line of [n] tokens. *)
Definition line_of (n : nat) : string :=
  (String.concat " " (replicate n "1") ++ String "010" EmptyString)%string.

(** The number of line pairs that a loader reads when [n] are there. *)
Definition read_count (max_size : option Z) (n : nat) : nat :=
  match max_size with
  | None => n
  | Some m => if m =? 0 then n else Nat.min n (Z.to_nat m)
  end.

(** A file that is not empty and whose last line has no line feed. *)
Fixpoint unterminated (s : string) : bool :=
  match s with
  | EmptyString => false
  | String c s' =>
      match s' with
      | EmptyString => negb (Ascii.eqb c "010")
      | String _ _ => unterminated s'
      end
  end.

(** A token among the first [n] of a line is not an integer. *)
Definition bad_token_within (n : nat) (line : string) : Prop :=
  exists tok, In tok (take n (Py.split line)) /\ raises (Py.int tok).

(** The flat loader's reading of a line pair, on the pair. *)
Definition flat_pair (EOS_ID : Z) (truncate_in truncate_out : nat)
    (lines : string * string) : result Seq2Seq.example :=
  Seq2Seq.read_pair EOS_ID truncate_in truncate_out lines.1 lines.2.

(** A sentence row: the length of its body first, then the body, of at
    most [max_sent] tokens, then zeros up to [max_sent]. *)
Definition padded_row (max_sent : nat) (row : list Z) : Prop :=
  exists body,
    (length body <= max_sent)%nat
    /\ row = Z.of_nat (length body) :: body
             ++ replicate (max_sent - length body) 0.


(** The hierarchical loader's reading of a line pair, on the pair. *)
Definition hierarchical_pair (EOS_ID : Z) (max_sent : nat)
    (lines : string * string) : result Seq3Seq.example :=
  Seq3Seq.read_article EOS_ID max_sent lines.1 lines.2.

(** An article that does not parse: a token of one of the sentences of the
    source line, or a token of the target line, is not an integer. *)
Definition bad_article (EOS_ID : Z) (source target : string) : Prop :=
  (exists piece tok,
      In piece (Py.split_sep_from (String " " (Py.str EOS_ID ++ " ")) O
                  EmptyString source)
      /\ In tok (Py.split piece) /\ raises (Py.int tok))
  \/ (exists tok, In tok (Py.split target) /\ raises (Py.int tok)).

(** The multiples of ten among the [n] numbers that follow [c], in
    order. *)
Definition tenth_steps (c : Z) (n : nat) : list Z :=
  List.filter (fun x => x mod 10 =? 0)
    (map (fun j => c + Z.of_nat j + 1) (seq 0 n)).

(** The learning rate that [lr_decay_and_set] sets at an epoch past
    [decay_start]. *)
Definition scheduled_rate (learning_rate learning_decay : float)
    (decay_start : Z) (py_pow : float -> Z -> float) (epoch : Z) : float :=
  LSTM.float32
    (PrimFloat.mul learning_rate
       (py_pow learning_decay (epoch - decay_start))).

(** The variables of the loop as [train] sets them before the first turn,
    for a model with the given learning rate and global step. *)
Definition loop_start (learning_rate : float) (global_step : Z)
  : Train.loop_state :=
  {| Train.model := {| Train.learning_rate := learning_rate;
                       Train.global_step := global_step;
                       Train.decay_runs := 0;
                       Train.saved_at := [] |};
     Train.loss := 0%float;
     Train.current_step := 0;
     Train.previous_losses := [];
     Train.reported := [] |}.

(** The number of examples of a data set. *)
Definition examples_in {A : Type} (data : list (list A)) : nat :=
  sum_list (map length data).

(** * Properties *)

(** ** The least index that passes a test *)

Section LeastIndex.

Lemma fold_min_spec (l : list nat) (x : nat) :
  let m := fold_left (fun m y => if (y <? m)%nat then y else m) l x in
  (m = x \/ In m l) /\ (m <= x)%nat /\ (forall y, In y l -> (m <= y)%nat).
Proof.
  revert x. induction l as [|a l IH]; intros x; simpl.
  - split; [by left|]. split; [lia|]. intros y [].
  - destruct (IH (if (a <? x)%nat then a else x)) as (Hin & Hle & Hall).
    destruct (Nat.ltb_spec a x) as [Hax|Hax].
    + split; [destruct Hin as [->|Hin]; auto|].
      split; [lia|]. intros y [<-|Hy]; [lia|auto].
    + split; [destruct Hin as [->|Hin]; auto|].
      split; [lia|]. intros y [<-|Hy]; [lia|auto].
Qed.

Lemma min_spec (l : list nat) (m : nat) :
  Py.min l = Ok m -> In m l /\ forall y, In y l -> (m <= y)%nat.
Proof.
  destruct l as [|x l]; simpl; [discriminate|].
  intros [= <-].
  destruct (fold_min_spec l x) as (Hin & Hle & Hall).
  split.
  - destruct Hin as [->|Hin]; auto.
  - intros y [<-|Hy]; auto.
Qed.

Lemma min_nonempty (l : list nat) : l <> [] -> exists m, Py.min l = Ok m.
Proof. destruct l; [congruence|]. intros _. simpl. eauto. Qed.

(** [min] over the indices below [n] that pass [p] is the least of
    them, and fails exactly when there is none. *)
Lemma min_filter_some (p : nat -> bool) (n k : nat) :
  (k < n)%nat -> p k = true ->
  exists i, Py.min (List.filter p (seq 0 n)) = Ok i
            /\ (i < n)%nat /\ p i = true
            /\ forall j, (j < i)%nat -> p j = false.
Proof.
  intros Hk Hp.
  destruct (min_nonempty (List.filter p (seq 0 n))) as [i Hi].
  { intros Hnil. assert (In k (List.filter p (seq 0 n))) as Hin.
    { apply filter_In. split; [apply in_seq; lia|done]. }
    rewrite Hnil in Hin. destruct Hin. }
  exists i. split; [done|].
  apply min_spec in Hi as [Hin Hleast].
  apply filter_In in Hin as [Hin Hpi]. apply in_seq in Hin.
  split; [lia|]. split; [done|].
  intros j Hj. destruct (p j) eqn:Hpj; [|done].
  assert (In j (List.filter p (seq 0 n))) as Hjin.
  { apply filter_In. split; [apply in_seq; lia|done]. }
  apply Hleast in Hjin. lia.
Qed.

Lemma min_filter_none (p : nat -> bool) (n : nat) :
  (forall j, (j < n)%nat -> p j = false) ->
  Py.min (List.filter p (seq 0 n)) = Raise ValueError.
Proof.
  intros Hnone.
  assert (List.filter p (seq 0 n) = []) as ->; [|done].
  destruct (List.filter p (seq 0 n)) as [|x l] eqn:E; [done|].
  assert (In x (List.filter p (seq 0 n))) as Hin by (rewrite E; by left).
  apply filter_In in Hin as [Hin Hp]. apply in_seq in Hin.
  rewrite Hnone in Hp; [done|lia].
Qed.

End LeastIndex.

(** ** The bucket of a random draw *)

(** C3. For a draw [r] in [[0,1)] and a bucket scale whose last entry is
    [1.0], the training loop selects a bucket, and it is the smallest index
    whose cumulative fraction is strictly greater than [r]; for the scale
    [[0.3, 1.0]] and the draw [0.5] it is bucket 1. *)
Theorem choose_bucket_least_above (scale : list float) (r : float) :
  PrimFloat.leb 0 r = true ->
  PrimFloat.ltb r 1 = true ->
  last scale = Some 1%float ->
  (exists i s,
      Train.choose_bucket scale r = Ok i
      /\ scale !! i = Some s /\ PrimFloat.ltb r s = true
      /\ forall j t, (j < i)%nat -> scale !! j = Some t ->
                     PrimFloat.ltb r t = false)
  /\ Train.choose_bucket [0.3; 1.0]%float 0.5%float = Ok 1%nat.
Proof.
  intros _ Hr Hlast. split; [|by vm_compute].
  unfold Train.choose_bucket, Train.above.
  set (p := fun i => match scale !! i with
                     | Some s => PrimFloat.ltb r s
                     | None => false
                     end).
  assert (exists k, (k < length scale)%nat /\ p k = true) as (k & Hk & Hpk).
  { exists (Nat.pred (length scale)).
    rewrite last_lookup in Hlast.
    assert (0 < length scale)%nat.
    { destruct scale; simpl in *; [done|lia]. }
    split; [lia|]. unfold p. by rewrite Hlast. }
  destruct (min_filter_some p _ k Hk Hpk) as (i & Hmin & Hi & Hpi & Hleast).
  unfold p in Hpi. destruct (scale !! i) as [s|] eqn:Hs; [|done].
  exists i, s. repeat split; try done.
  intros j t Hj Ht. specialize (Hleast j Hj). unfold p in Hleast.
  by rewrite Ht in Hleast.
Qed.

Lemma choose_bucket_least_above_witness :
  exists i s,
    Train.choose_bucket [0.25; 0.75; 1.0]%float 0.5%float = Ok i
    /\ [0.25; 0.75; 1.0]%float !! i = Some s /\ PrimFloat.ltb 0.5 s = true
    /\ forall j t, (j < i)%nat -> [0.25; 0.75; 1.0]%float !! j = Some t ->
                   PrimFloat.ltb 0.5 t = false.
Proof.
  apply (choose_bucket_least_above [0.25; 0.75; 1.0]%float 0.5%float);
    reflexivity.
Defined.

(** ** The bucket of an input to decode *)

(** C7. The hierarchical decode driver picks, for an input of [n] tokens,
    the smallest-index bucket whose source capacity is strictly greater
    than [n]; when [n] is at least the largest source capacity (20 for the
    buckets in use) no bucket is selected and the choice raises. *)
Theorem bucket_of_least_roomy (token_ids : list Z) :
  (forall b cap,
      Seq3Seq._buckets !! b = Some cap ->
      (length token_ids < cap.1)%nat ->
      exists i capi,
        Decode.bucket_of Seq3Seq._buckets token_ids = Ok i
        /\ Seq3Seq._buckets !! i = Some capi
        /\ (length token_ids < capi.1)%nat
        /\ forall j capj, (j < i)%nat -> Seq3Seq._buckets !! j = Some capj ->
                          (capj.1 <= length token_ids)%nat)
  /\ ((forall b cap, Seq3Seq._buckets !! b = Some cap ->
                     (cap.1 <= length token_ids)%nat) ->
      Decode.bucket_of Seq3Seq._buckets token_ids = Raise ValueError)
  /\ ((20 <= length token_ids)%nat ->
      Decode.bucket_of Seq3Seq._buckets token_ids = Raise ValueError).
Proof.
  set (n := length token_ids).
  set (p := fun b => match Seq3Seq._buckets !! b with
                     | Some bucket => (n <? bucket.1)%nat
                     | None => false
                     end).
  assert ((forall j, (j < length Seq3Seq._buckets)%nat -> p j = false) ->
          Decode.bucket_of Seq3Seq._buckets token_ids = Raise ValueError)
    as Hnone.
  { intros H. by apply min_filter_none. }
  split; [|split].
  - intros b cap Hb Hlt.
    assert (b < length Seq3Seq._buckets)%nat as Hlen
        by (eapply lookup_lt_Some; eauto).
    assert (p b = true) as Hpb.
    { unfold p. rewrite Hb. by apply Nat.ltb_lt. }
    destruct (min_filter_some p _ b Hlen Hpb)
      as (i & Hmin & Hi & Hpi & Hleast).
    unfold p in Hpi.
    destruct (Seq3Seq._buckets !! i) as [capi|] eqn:Hci; [|done].
    exists i, capi. split; [done|]. split; [done|].
    split; [by apply Nat.ltb_lt|].
    intros j capj Hj Hcj. specialize (Hleast j Hj).
    unfold p in Hleast. rewrite Hcj in Hleast.
    by apply Nat.ltb_ge.
  - intros Hall. apply Hnone. intros j Hj. unfold p.
    destruct (Seq3Seq._buckets !! j) as [cap|] eqn:Hc; [|done].
    apply Nat.ltb_ge. eauto.
  - intros H20. apply Hnone. intros j Hj. unfold p.
    simpl in Hj.
    do 6 (destruct j as [|j]; [simpl; apply Nat.ltb_ge; fold n; lia|]).
    lia.
Qed.

(** ** Cutting the outputs at the end-of-sequence id *)

Section CutAtEos.

Variable EOS_ID : Z.

Lemma index_first (l : list Z) (k : nat) :
  l !! k = Some EOS_ID ->
  (forall j, (j < k)%nat -> l !! j <> Some EOS_ID) ->
  Py.contains EOS_ID l = true /\ Py.index EOS_ID l = Ok k.
Proof.
  revert k. induction l as [|y l IH]; intros k Hk Hfirst; [done|].
  simpl. destruct (Z.eqb_spec y EOS_ID) as [->|Hne].
  - split; [done|]. destruct k as [|k]; [done|].
    exfalso. apply (Hfirst O); [lia|done].
  - destruct k as [|k]; [simpl in Hk; congruence|].
    destruct (IH k) as [Hc Hi]; [done| |].
    + intros j Hj. apply (Hfirst (S j)). lia.
    + simpl. by rewrite Hc, Hi.
Qed.

Lemma contains_absent (l : list Z) :
  ~ In EOS_ID l -> Py.contains EOS_ID l = false.
Proof.
  induction l as [|y l IH]; [done|]. simpl. intros Hnot.
  destruct (Z.eqb_spec y EOS_ID) as [->|Hne]; [tauto|]. apply IH. tauto.
Qed.

Lemma cut_at_first (l : list Z) (k : nat) :
  l !! k = Some EOS_ID ->
  (forall j, (j < k)%nat -> l !! j <> Some EOS_ID) ->
  Decode.cut_at_eos EOS_ID l = Ok (take k l).
Proof.
  intros Hk Hfirst. unfold Decode.cut_at_eos.
  destruct (index_first l k Hk Hfirst) as [-> ->]. done.
Qed.

Lemma cut_without (l : list Z) :
  ~ In EOS_ID l -> Decode.cut_at_eos EOS_ID l = Ok l.
Proof.
  intros Hnot. unfold Decode.cut_at_eos. by rewrite contains_absent.
Qed.

End CutAtEos.

(** C5. When the decoded outputs hold the end-of-sequence id, first at
    position [k], the decode driver keeps exactly their first [k] tokens;
    outputs without it are kept whole. This holds of the truncation itself
    and of the decoding of an article that has a bucket. *)
Theorem decode_cuts_at_first_eos (EOS_ID : Z) (outputs : list Z) :
  (forall k,
      outputs !! k = Some EOS_ID ->
      (forall j, (j < k)%nat -> outputs !! j <> Some EOS_ID) ->
      Decode.cut_at_eos EOS_ID outputs = Ok (take k outputs)
      /\ length (take k outputs) = k)
  /\ (~ In EOS_ID outputs -> Decode.cut_at_eos EOS_ID outputs = Ok outputs)
  /\ (forall greedy token_ids bucket_id,
        Decode.bucket_of Seq3Seq._buckets token_ids = Ok bucket_id ->
        greedy bucket_id token_ids = outputs ->
        (forall k,
            outputs !! k = Some EOS_ID ->
            (forall j, (j < k)%nat -> outputs !! j <> Some EOS_ID) ->
            Decode.decode_article EOS_ID greedy token_ids
            = Ok (take k outputs))
        /\ (~ In EOS_ID outputs ->
            Decode.decode_article EOS_ID greedy token_ids = Ok outputs)).
Proof.
  split; [|split].
  - intros k Hk Hfirst. split; [by apply cut_at_first|].
    apply length_take_le. apply lookup_lt_Some in Hk. lia.
  - apply cut_without.
  - intros greedy token_ids bucket_id Hb Hg.
    unfold Decode.decode_article. rewrite Hb. simpl. rewrite Hg. split.
    + intros k Hk Hfirst. by apply cut_at_first.
    + apply cut_without.
Qed.

(** ** Creating the model *)

(** C8. [create_model] restores the parameters from the recorded
    checkpoint exactly when the directory has a checkpoint state and the
    file it names is present; in every other case it takes fresh parameters
    and returns, raising nothing. *)
Theorem create_model_restores_iff_present
    (params : Type) (state : option Model.CheckpointState)
    (present : string -> bool) (restore : string -> result params)
    (fresh : params) :
  let created := Model.create_model params state present restore fresh in
  (forall path,
      state = Some {| Model.model_checkpoint_path := path |} ->
      present path = true ->
      created = (p ← restore path; Ok (Model.Restored path, p)))
  /\ ((forall path,
         state = Some {| Model.model_checkpoint_path := path |} ->
         present path = false) ->
      created = Ok (Model.Fresh, fresh) /\ ~ raises created)
  /\ (forall path p,
        created = Ok (Model.Restored path, p) ->
        state = Some {| Model.model_checkpoint_path := path |}
        /\ present path = true /\ restore path = Ok p).
Proof.
  intros created. subst created.
  unfold Model.create_model, Model.usable_checkpoint.
  split; [|split].
  - intros path -> Hp. simpl. by rewrite Hp.
  - intros Hmissing. destruct state as [[path]|]; simpl.
    + rewrite (Hmissing path eq_refl). simpl. tauto.
    + simpl. tauto.
  - intros path p. destruct state as [[path']|]; simpl; [|done].
    destruct (present path') eqn:Hp; [|done].
    destruct (restore path') as [q|e] eqn:Hr; simpl; [|done].
    intros [= <- <-]. done.
Qed.

(** ** The sampling loop of the flat model's decode *)

Lemma sampling_turn_unbound (draw : Decode.value -> result Z)
    (row : list float) (rows : list (list float))
    (rest : list (list (list float))) (words : list (list Z)) :
  Decode.sampling_turn draw ((row :: rows) :: rest) words
  = Raise (NameError "batch_logit").
Proof. reflexivity. Qed.

Lemma sampling_turn_raises (draw : Decode.value -> result Z)
    (output_logits : list (list (list float))) (words : list (list Z)) :
  raises (Decode.sampling_turn draw output_logits words).
Proof.
  destruct output_logits as [|[|row rows] rest]; simpl; [done| |done].
  unfold Decode.ndarray_append. done.
Qed.

(** C9. In the flat model's decode, the sampling expression names
    [batch_logit], which no scope binds: a turn of the sampling loop whose
    logits hold at least one batch row raises the unresolved-name error
    before any word is appended, no turn ever returns, and so the loop of
    the bucket in use never completes. *)
Theorem sampling_loop_never_completes (draw : Decode.value -> result Z)
    (step : list (list Z) -> list (list (list float)))
    (words : list (list Z)) :
  (forall batch_logits,
      Decode.lookup_name "batch_logit"
        (("batch_logits"%string, Decode.Logits batch_logits)
           :: Decode.sampling_scope (step words))
      = Raise (NameError "batch_logit"))
  /\ (forall row rows rest,
        step words = (row :: rows) :: rest ->
        Decode.sampling_turn draw (step words) words
        = Raise (NameError "batch_logit")
        /\ Decode.sample_bucket draw 0 step words
           = Raise (NameError "batch_logit"))
  /\ (forall output_logits generated_so_far,
        raises (Decode.sampling_turn draw output_logits generated_so_far))
  /\ raises (Decode.sample_bucket draw 0 step words).
Proof.
  split; [|split; [|split]].
  - intros batch_logits. destruct (step words); reflexivity.
  - intros row rows rest Hstep. split.
    + rewrite Hstep. apply sampling_turn_unbound.
    + unfold Decode.sample_bucket. simpl.
      by rewrite Hstep, sampling_turn_unbound.
  - intros. apply sampling_turn_raises.
  - unfold Decode.sample_bucket. simpl.
    pose proof (sampling_turn_raises draw (step words) words) as H.
    destruct (Decode.sampling_turn draw (step words) words); [done|].
    done.
Qed.

(** ** The checkpoint block *)

Lemma last_three_split {A : Type} (l : list A) :
  (2 < length l)%nat ->
  exists earlier a b c,
    l = earlier ++ [a; b; c] /\ Py.last_n 3 l = [a; b; c].
Proof.
  intros Hlen. unfold Py.last_n.
  exists (take (length l - 3) l).
  assert (length (drop (length l - 3) l) = 3%nat) as Hd
      by (rewrite length_drop; lia).
  destruct (drop (length l - 3) l) as [|a [|b [|c [|d t]]]] eqn:E;
    simpl in Hd; try lia.
  exists a, b, c. split; [|done].
  by rewrite <- E, take_drop.
Qed.

Lemma no_improvement_spec (previous_losses : list float) (loss : float) :
  exists decay,
    Train.no_improvement previous_losses loss = Ok decay
    /\ (decay = true <-> exceeds_last_three previous_losses loss).
Proof.
  unfold Train.no_improvement.
  destruct (Nat.ltb_spec 2 (length previous_losses)) as [Hlen|Hlen].
  - destruct (last_three_split previous_losses Hlen)
      as (earlier & a & b & c & Hsplit & Hlast).
    rewrite Hlast. simpl. eexists. split; [done|]. split.
    + intros Hd. exists earlier, a, b, c. done.
    + intros (earlier' & a' & b' & c' & Hsplit' & Hgt).
      rewrite Hsplit in Hsplit'.
      change [a; b; c] with ([a; b] ++ [c]) in Hsplit'.
      change [a'; b'; c'] with ([a'; b'] ++ [c']) in Hsplit'.
      rewrite !app_assoc in Hsplit'.
      apply app_inj_tail in Hsplit' as [Hsplit' ->].
      change (earlier ++ [a; b]) with (earlier ++ [a] ++ [b]) in Hsplit'.
      change (earlier' ++ [a'; b']) with (earlier' ++ [a'] ++ [b'])
        in Hsplit'.
      rewrite !app_assoc in Hsplit'.
      apply app_inj_tail in Hsplit' as [Hsplit' ->].
      apply app_inj_tail in Hsplit' as [_ ->].
      done.
  - exists false. split; [done|]. split; [done|].
    intros (earlier & a & b & c & -> & _).
    rewrite length_app in Hlen. simpl in Hlen. lia.
Qed.

Lemma adjust_learning_rate_spec
    (learning_rate_decay_factor : float) (st : Train.loop_state) :
  exists st',
    Train.adjust_learning_rate learning_rate_decay_factor st = Ok st'
    /\ Train.previous_losses st'
       = Train.previous_losses st ++ [Train.loss st]
    /\ (Train.decay_runs (Train.model st')
        = S (Train.decay_runs (Train.model st))
        <-> exceeds_last_three (Train.previous_losses st) (Train.loss st))
    /\ (exceeds_last_three (Train.previous_losses st) (Train.loss st) ->
        Train.learning_rate (Train.model st')
        = PrimFloat.mul (Train.learning_rate (Train.model st))
            learning_rate_decay_factor)
    /\ (~ exceeds_last_three (Train.previous_losses st) (Train.loss st) ->
        Train.model st' = Train.model st).
Proof.
  unfold Train.adjust_learning_rate.
  destruct (no_improvement_spec (Train.previous_losses st) (Train.loss st))
    as (decay & -> & Hdecay).
  simpl. eexists. split; [done|]. simpl. split; [done|].
  destruct decay; simpl.
  - assert (exceeds_last_three (Train.previous_losses st) (Train.loss st))
      as Hex by (by apply Hdecay).
    split; [tauto|]. split; [done|]. tauto.
  - assert (~ exceeds_last_three (Train.previous_losses st) (Train.loss st))
      as Hex.
    { intros H. apply Hdecay in H. done. }
    split; [|split; [tauto|done]].
    split; [lia|tauto].
Qed.

Lemma exceeds_last_three_length (previous_losses : list float)
    (loss : float) :
  exceeds_last_three previous_losses loss ->
  (3 <= length previous_losses)%nat.
Proof.
  intros (earlier & a & b & c & -> & _). rewrite length_app. simpl. lia.
Qed.

(** C2. At a checkpoint the decay operation is run if and only if the
    accumulated loss exceeds the maximum of the three losses recorded
    last (with fewer than three recorded it is not run); when it is not
    run the model, and so the learning rate, is left as it was, when it is
    run the learning rate is multiplied by the decay factor, and in either
    case the loss is appended to the history. The same holds of the whole
    checkpoint block, which saves the model and changes nothing else of
    it. *)
Theorem decay_iff_loss_exceeds_last_three
    (learning_rate_decay_factor : float) (st : Train.loop_state) :
  let exceeds :=
    exceeds_last_three (Train.previous_losses st) (Train.loss st) in
  (exists st',
      Train.adjust_learning_rate learning_rate_decay_factor st = Ok st'
      /\ Train.previous_losses st'
         = Train.previous_losses st ++ [Train.loss st]
      /\ (Train.decay_runs (Train.model st')
          = S (Train.decay_runs (Train.model st)) <-> exceeds)
      /\ (exceeds ->
          Train.learning_rate (Train.model st')
          = PrimFloat.mul (Train.learning_rate (Train.model st))
              learning_rate_decay_factor)
      /\ (~ exceeds -> Train.model st' = Train.model st)
      /\ ((length (Train.previous_losses st) < 3)%nat ->
          Train.model st' = Train.model st))
  /\ (forall libm_exp st',
        Train.checkpoint learning_rate_decay_factor libm_exp st = Ok st' ->
        Train.previous_losses st'
        = Train.previous_losses st ++ [Train.loss st]
        /\ (Train.decay_runs (Train.model st')
            = S (Train.decay_runs (Train.model st)) <-> exceeds)
        /\ (exceeds ->
            Train.learning_rate (Train.model st')
            = PrimFloat.mul (Train.learning_rate (Train.model st))
                learning_rate_decay_factor)
        /\ (~ exceeds ->
            Train.learning_rate (Train.model st')
            = Train.learning_rate (Train.model st))).
Proof.
  intros exceeds. split.
  - destruct (adjust_learning_rate_spec learning_rate_decay_factor st)
      as (st' & Hst' & Hprev & Hiff & Hrun & Hkeep).
    exists st'. repeat (split; [done|]).
    intros Hshort. apply Hkeep. intros Hex.
    apply exceeds_last_three_length in Hex. lia.
  - intros libm_exp st'. unfold Train.checkpoint.
    destruct (Train.perplexity_of libm_exp (Train.loss st)) as [p|e];
      simpl; [|done].
    set (st0 := {| Train.model := Train.model st;
                   Train.loss := Train.loss st;
                   Train.current_step := Train.current_step st;
                   Train.previous_losses := Train.previous_losses st;
                   Train.reported := Train.reported st ++ [p] |}).
    destruct (adjust_learning_rate_spec learning_rate_decay_factor st0)
      as (st1 & -> & Hprev & Hiff & Hrun & Hkeep).
    simpl. intros [= <-]. simpl. subst st0. simpl in *.
    split; [done|]. split; [done|]. split; [done|].
    intros Hno. by rewrite (Hkeep Hno).
Qed.

(** A turn of the loop that is due for a checkpoint runs the checkpoint
    block on the state after the step: in the flat model when the step
    count is a multiple of [steps_per_checkpoint], in the hierarchical
    model when an hour has passed, and then the loop ends. *)
Lemma iteration_at_checkpoint (learning_rate_decay_factor : float)
    (libm_exp : float -> float) (steps_per_checkpoint : Z)
    (train_buckets_scale : list float) (random_number_01 loss_share : float)
    (st : Train.loop_state) (bucket_id : nat) :
  Train.choose_bucket train_buckets_scale random_number_01 = Ok bucket_id ->
  (steps_per_checkpoint <> 0 ->
   (Train.current_step st + 1) mod steps_per_checkpoint = 0 ->
   Train.seq2seq_iteration learning_rate_decay_factor libm_exp
     steps_per_checkpoint train_buckets_scale random_number_01 loss_share st
   = Train.checkpoint learning_rate_decay_factor libm_exp
       (Train.step loss_share st))
  /\ Train.seq3seq_iteration learning_rate_decay_factor libm_exp
       train_buckets_scale random_number_01 loss_share true st
     = (st' ← Train.checkpoint learning_rate_decay_factor libm_exp
                (Train.step loss_share st);
        Ok (st', false)).
Proof.
  intros Hb. unfold Train.seq2seq_iteration, Train.seq3seq_iteration.
  rewrite Hb. simpl. split; [|done].
  intros Hne Hmod. unfold Train.py_mod.
  destruct (Z.eqb_spec steps_per_checkpoint 0) as [|_]; [done|].
  simpl. by rewrite Hmod.
Qed.

(** C6. At a checkpoint the perplexity reported is [exp] of the
    accumulated loss when the loss is below 300 and infinity otherwise
    (also for a loss that is not a number), and no arithmetic error is
    raised, given that the C library's [exp] of an argument below 300 is
    finite. *)
Theorem perplexity_guarded_against_overflow
    (libm_exp : float -> float) (learning_rate_decay_factor : float)
    (st : Train.loop_state) :
  (forall x, PrimFloat.ltb x 300 = true ->
             PrimFloat.is_nan (libm_exp x) = false
             /\ PrimFloat.is_infinity (libm_exp x) = false) ->
  let loss := Train.loss st in
  (PrimFloat.ltb loss 300 = true ->
   Train.perplexity_of libm_exp loss = Ok (libm_exp loss))
  /\ (PrimFloat.ltb loss 300 = false ->
      Train.perplexity_of libm_exp loss = Ok PrimFloat.infinity)
  /\ ~ raises (Train.perplexity_of libm_exp loss)
  /\ exists st',
      Train.checkpoint learning_rate_decay_factor libm_exp st = Ok st'
      /\ Train.reported st'
         = Train.reported st
           ++ [if PrimFloat.ltb loss 300 then libm_exp loss
               else PrimFloat.infinity].
Proof.
  intros Hexp loss.
  assert (PrimFloat.ltb loss 300 = true ->
          Train.perplexity_of libm_exp loss = Ok (libm_exp loss)) as Hlow.
  { intros Hlt. unfold Train.perplexity_of, Train.math_exp. rewrite Hlt.
    destruct (Hexp loss Hlt) as [-> ->]. done. }
  assert (PrimFloat.ltb loss 300 = false ->
          Train.perplexity_of libm_exp loss = Ok PrimFloat.infinity) as Hhigh.
  { intros Hge. unfold Train.perplexity_of. by rewrite Hge. }
  split; [done|]. split; [done|]. split.
  - destruct (PrimFloat.ltb loss 300) eqn:Hlt.
    + rewrite Hlow by done. simpl. tauto.
    + rewrite Hhigh by done. simpl. tauto.
  - unfold Train.checkpoint. fold loss.
    assert (Train.perplexity_of libm_exp loss
            = Ok (if PrimFloat.ltb loss 300 then libm_exp loss
                  else PrimFloat.infinity)) as ->.
    { destruct (PrimFloat.ltb loss 300) eqn:Hlt; auto. }
    simpl. unfold Train.adjust_learning_rate. simpl.
    destruct (no_improvement_spec (Train.previous_losses st) loss)
      as (decay & Hd & _).
    fold loss. rewrite Hd. simpl. eauto.
Qed.

Lemma perplexity_guarded_against_overflow_witness :
  let st := {| Train.model := {| Train.learning_rate := 0.5%float;
                                 Train.global_step := 200;
                                 Train.decay_runs := 0;
                                 Train.saved_at := [] |};
               Train.loss := 2.5%float;
               Train.current_step := 200;
               Train.previous_losses := [];
               Train.reported := [] |} in
  ~ raises (Train.perplexity_of capped_exp (Train.loss st))
  /\ exists st', Train.checkpoint 0.99%float capped_exp st = Ok st'.
Proof.
  intros st.
  destruct (perplexity_guarded_against_overflow capped_exp 0.99%float st)
    as (_ & _ & Hno & st' & Hst' & _).
  - intros x Hx. unfold capped_exp. rewrite Hx. split; reflexivity.
  - split; [exact Hno|]. exists st'. exact Hst'.
Defined.

(** ** The flat loader *)

Section MapResult.

Context {A B : Type} (f : A -> result B).

Lemma map_result_cons_inv (x : A) (l : list A) (ys : list B) :
  Py.map_result f (x :: l) = Ok ys ->
  exists y ys', ys = y :: ys' /\ f x = Ok y /\ Py.map_result f l = Ok ys'.
Proof.
  simpl. destruct (f x) as [y|e]; [|done].
  destruct (Py.map_result f l) as [ys'|e]; [|done].
  intros [= <-]. eauto.
Qed.

Lemma map_result_take (n : nat) (l : list A) (ys : list B) :
  Py.map_result f l = Ok ys ->
  Py.map_result f (take n l) = Ok (take n ys).
Proof.
  revert l ys. induction n as [|n IH]; intros l ys H.
  - by rewrite !take_0.
  - destruct l as [|x l].
    + simpl in H. injection H as <-. done.
    + apply map_result_cons_inv in H as (y & ys' & -> & Hy & Hl).
      simpl. rewrite Hy, (IH l ys' Hl). done.
Qed.

Lemma map_result_length (l : list A) (ys : list B) :
  Py.map_result f l = Ok ys -> length ys = length l.
Proof.
  revert ys. induction l as [|x l IH]; intros ys H.
  - simpl in H. by injection H as <-.
  - apply map_result_cons_inv in H as (y & ys' & -> & _ & Hl).
    simpl. by rewrite (IH ys' Hl).
Qed.

End MapResult.

Lemma lines_from_truthy (cur s : string) :
  Forall (fun l => Py.truthy l = true) (Py.lines_from cur s).
Proof.
  revert cur. induction s as [|c s IH]; intros cur; simpl.
  - destruct cur; simpl; constructor; [done|constructor].
  - destruct (Ascii.eqb c "010").
    + constructor; [|apply IH]. unfold Py.snoc. by destruct cur.
    + apply IH.
Qed.

Section FlatLoader.

Variable EOS_ID : Z.
Variables truncate_in truncate_out : nat.

Lemma read_pair_of_ids (source target : string) (xs ys : list Z) :
  line_ids source = Ok xs ->
  line_ids target = Ok ys ->
  Seq2Seq.read_pair EOS_ID truncate_in truncate_out source target
  = Ok (flat_example EOS_ID truncate_in truncate_out xs ys).
Proof.
  unfold line_ids, Seq2Seq.read_pair. intros Hx Hy.
  rewrite (map_result_take _ truncate_in _ _ Hx).
  rewrite (map_result_take _ truncate_out _ _ Hy). done.
Qed.

Lemma allowed_step {A : Type} (max_size : option Z) (counter : Z)
    (x : A) (l : list A) :
  allowed max_size counter (x :: l)
  = if Seq2Seq.within_limit max_size counter
    then x :: allowed max_size (counter + 1) l
    else [].
Proof.
  unfold allowed, Seq2Seq.within_limit.
  destruct max_size as [m|]; [|done].
  destruct (Z.eqb_spec m 0) as [->|Hm]; [done|]. simpl.
  destruct (Z.ltb_spec counter m) as [Hlt|Hge].
  - replace (Z.to_nat (m - counter))
      with (S (Z.to_nat (m - (counter + 1)))) by lia.
    done.
  - replace (Z.to_nat (m - counter)) with O by lia. done.
Qed.

Lemma allowed_nil {A : Type} (max_size : option Z) (counter : Z) :
  allowed max_size counter (@nil A) = [].
Proof.
  unfold allowed. destruct max_size as [m|]; [|done].
  destruct (m =? 0); [done|]. by rewrite take_nil.
Qed.

Lemma flat_read_loop_spec (max_size : option Z)
    (source_file target_file : list string) (xss yss : list (list Z))
    (counter : Z) (loaded : list Seq2Seq.example) :
  Forall (fun l => Py.truthy l = true) source_file ->
  Forall (fun l => Py.truthy l = true) target_file ->
  Py.map_result line_ids source_file = Ok xss ->
  Py.map_result line_ids target_file = Ok yss ->
  Seq2Seq.read_loop EOS_ID max_size truncate_in truncate_out
    source_file target_file counter [loaded]
  = Ok [loaded
        ++ allowed max_size counter
             (zip_with (flat_example EOS_ID truncate_in truncate_out)
                xss yss)].
Proof.
  revert target_file xss yss counter loaded.
  induction source_file as [|source source_file IH];
    intros target_file xss yss counter loaded Hs Ht Hx Hy.
  - simpl in Hx. injection Hx as <-. simpl.
    by rewrite allowed_nil, app_nil_r.
  - apply map_result_cons_inv in Hx as (xs & xss' & -> & Hxs & Hxss).
    destruct target_file as [|target target_file].
    + simpl in Hy. injection Hy as <-. simpl.
      by rewrite allowed_nil, app_nil_r.
    + apply map_result_cons_inv in Hy as (ys & yss' & -> & Hys & Hyss).
      apply Forall_cons in Hs as [Hs1 Hs]. apply Forall_cons in Ht as [Ht1 Ht].
      simpl. rewrite Hs1, Ht1, allowed_step. simpl.
      destruct (Seq2Seq.within_limit max_size counter).
      * rewrite (read_pair_of_ids _ _ _ _ Hxs Hys). simpl.
        rewrite (IH target_file xss' yss' _ _ Hs Ht Hxss Hyss).
        by rewrite <- app_assoc.
      * by rewrite app_nil_r.
Qed.

End FlatLoader.

(** C4. When the lines of the source and target files are integers, the
    flat loader stores, for each line pair that it reads, the integers of
    the source line cut at the maximum source length and the integers of
    the target line cut at the maximum target length and followed by the
    end-of-sequence id; every stored target ends with that id. The source
    line ["4 5 6\n"] and the target line ["7 8\n"] with the id 2 give
    [[4,5,6]] and [[7,8,2]]. *)
Theorem flat_loader_truncates_and_appends_eos
    (EOS_ID : Z) (truncate_in truncate_out : nat)
    (source_content target_content : string) (max_size : option Z)
    (xss yss : list (list Z)) :
  file_ids source_content = Ok xss ->
  file_ids target_content = Ok yss ->
  let loaded :=
    allowed max_size 0
      (zip_with (flat_example EOS_ID truncate_in truncate_out) xss yss) in
  Seq2Seq.read_data EOS_ID source_content target_content max_size
    truncate_in truncate_out
  = Ok [loaded]
  /\ (forall ex, ex ∈ loaded ->
        (exists xs ys,
            xs ∈ xss /\ ys ∈ yss
            /\ ex.1 = take truncate_in xs
            /\ ex.2 = take truncate_out ys ++ [EOS_ID])
        /\ last ex.2 = Some EOS_ID
        /\ (length ex.1 <= truncate_in)%nat
        /\ (length ex.2 <= truncate_out + 1)%nat)
  /\ Seq2Seq.read_data 2 "4 5 6
" "7 8
" None 200 48
     = Ok [[([4; 5; 6], [7; 8; 2])]].
Proof.
  intros Hx Hy loaded. split; [|split; [|reflexivity]].
  - unfold Seq2Seq.read_data, Seq2Seq.read_data_with. simpl.
    rewrite (flat_read_loop_spec EOS_ID truncate_in truncate_out max_size
               _ _ xss yss 0 []); try done; apply lines_from_truthy.
  - intros ex Hex.
    assert (ex ∈ zip_with (flat_example EOS_ID truncate_in truncate_out)
                   xss yss) as Hin.
    { subst loaded. unfold allowed in Hex.
      destruct max_size as [m|]; [|done].
      destruct (m =? 0); [done|].
      apply elem_of_take in Hex as (i & Hi & _).
      by eapply list_elem_of_lookup_2. }
    apply elem_of_zip_with in Hin as (xs & ys & -> & Hxs & Hys).
    unfold flat_example. simpl. split; [by exists xs, ys|].
    split; [apply last_snoc|].
    split; [apply firstn_le_length|].
    rewrite length_app. simpl.
    pose proof (firstn_le_length truncate_out ys). lia.
Qed.

Lemma flat_loader_truncates_and_appends_eos_witness :
  Seq2Seq.read_data 2 "4 5 6 7
1 2
" "7 8 9
3
" None 3 2
  = Ok [[([4; 5; 6], [7; 8; 2]); ([1; 2], [3; 2])]].
Proof.
  apply (flat_loader_truncates_and_appends_eos 2 3 2 _ _ None
           [[4; 5; 6; 7]; [1; 2]] [[7; 8; 9]; [3]]); reflexivity.
Defined.

(** ** The order in which the hierarchical loader tries the buckets *)

Section BucketOrder.

Context {A : Type}.

Lemma enumerate_from_snoc (k : nat) (l : list A) (x : A) :
  Py.enumerate_from k (l ++ [x])
  = Py.enumerate_from k l ++ [((k + length l)%nat, x)].
Proof.
  revert k. induction l as [|y l IH]; intros k; simpl.
  - by rewrite Nat.add_0_r.
  - rewrite IH, Nat.add_succ_r. done.
Qed.

Lemma enumerate_from_keys (k : nat) (l : list A) :
  Forall (fun y => (k <= y.1)%nat) (Py.enumerate_from k l).
Proof.
  revert k. induction l as [|x l IH]; intros k; simpl; constructor.
  - simpl. lia.
  - eapply Forall_impl; [apply IH|]. simpl. intros; lia.
Qed.

Lemma insert_desc_least (x : nat * A) (l : list (nat * A)) :
  Forall (fun y => (x.1 <= y.1)%nat) l -> Py.insert_desc x l = l ++ [x].
Proof.
  induction 1 as [|y l Hy _ IH]; simpl; [done|].
  destruct (Nat.leb_spec x.1 y.1); [|lia]. by rewrite IH.
Qed.

(** Sorting the enumerated buckets on their index, greatest first, reverses
    them. *)
Lemma sorted_desc_enumerate_from (k : nat) (l : list A) :
  Py.sorted_desc (Py.enumerate_from k l) = rev (Py.enumerate_from k l).
Proof.
  revert k. induction l as [|x l IH]; intros k; [done|].
  unfold Py.sorted_desc in *. simpl. rewrite IH.
  apply insert_desc_least. apply Forall_rev.
  eapply Forall_impl; [apply enumerate_from_keys|]. simpl. intros; lia.
Qed.

Lemma sorted_desc_enumerate_snoc (l : list A) (x : A) :
  Py.sorted_desc (Py.enumerate (l ++ [x]))
  = (length l, x) :: Py.sorted_desc (Py.enumerate l).
Proof.
  unfold Py.enumerate. rewrite !sorted_desc_enumerate_from.
  rewrite enumerate_from_snoc, rev_app_distr. done.
Qed.

End BucketOrder.

(** ** The hierarchical loader *)

Section Trimming.

Variable article : Seq3Seq.example.
Variable data : Seq3Seq.data_set.

Lemma store_article_snoc (buckets : list (nat * nat)) (x : nat * nat) :
  Seq3Seq.store_article (buckets ++ [x]) article data
  = if overflows x article
    then Py.append_at (length buckets) (trimmed x article) data
    else Seq3Seq.store_article buckets article data.
Proof.
  unfold Seq3Seq.store_article. rewrite sorted_desc_enumerate_snoc.
  destruct x as [source_size target_size]. done.
Qed.


(** An article that overflows no bucket leaves the data set as it is. *)
Lemma store_article_none (buckets : list (nat * nat)) :
  (forall b bucket, buckets !! b = Some bucket ->
                    overflows bucket article = false) ->
  Seq3Seq.store_article buckets article data = Ok data.
Proof.
  induction buckets as [|x buckets IH] using rev_ind; [done|].
  intros Hnone. rewrite store_article_snoc.
  rewrite (Hnone (length buckets) x).
  - apply IH. intros b bucket Hb. apply (Hnone b).
    rewrite lookup_app_l; [done|]. by eapply lookup_lt_Some.
  - by rewrite lookup_app_r, Nat.sub_diag by lia.
Qed.

(** Storing an article changes nothing or appends to one bucket. *)
Lemma store_article_cases (buckets : list (nat * nat)) :
  Seq3Seq.store_article buckets article data = Ok data
  \/ exists b bucket,
      buckets !! b = Some bucket
      /\ overflows bucket article = true
      /\ (forall b' bucket', (b < b')%nat -> buckets !! b' = Some bucket' ->
                             overflows bucket' article = false)
      /\ Seq3Seq.store_article buckets article data
         = Py.append_at b (trimmed bucket article) data.
Proof.
  induction buckets as [|x buckets IH] using rev_ind; [by left|].
  rewrite store_article_snoc.
  destruct (overflows x article) eqn:Hx.
  - right. exists (length buckets), x.
    split; [by rewrite lookup_app_r, Nat.sub_diag by lia|].
    split; [done|]. split; [|done].
    intros b' bucket' Hlt Hb'. apply lookup_lt_Some in Hb'.
    rewrite length_app in Hb'. simpl in Hb'. lia.
  - destruct IH as [IH|(b & bucket & Hb & Hfit & Hlater & Hstore)];
      [by left|].
    right. exists b, bucket.
    pose proof (lookup_lt_Some _ _ _ Hb) as Hlt.
    split; [by rewrite lookup_app_l|]. split; [done|]. split; [|done].
    intros b' bucket' Hb' Hl.
    destruct (decide (b' = length buckets)) as [->|Hne].
    + rewrite lookup_app_r, Nat.sub_diag in Hl by lia.
      by injection Hl as <-.
    + apply (Hlater b'); [done|].
      rewrite lookup_app_l in Hl; [done|].
      apply lookup_lt_Some in Hl. rewrite length_app in Hl. simpl in Hl.
      lia.
Qed.

End Trimming.

Lemma append_at_ok {A : Type} (i : nat) (x : A) (ls : list (list A))
    (l : list A) :
  ls !! i = Some l -> Py.append_at i x ls = Ok (<[i := l ++ [x]]> ls).
Proof. unfold Py.append_at. by intros ->. Qed.

Lemma append_at_inv {A : Type} (i : nat) (x : A) (ls ls' : list (list A)) :
  Py.append_at i x ls = Ok ls' ->
  exists l, ls !! i = Some l /\ ls' = <[i := l ++ [x]]> ls.
Proof.
  unfold Py.append_at. destruct (ls !! i) as [l|]; [|done].
  intros [= <-]. eauto.
Qed.

(** A line without the separator is one piece. *)
Lemma split_sep_from_absent (sep cur s : string) :
  occurs sep s = false ->
  Py.split_sep_from sep O cur s = [(cur ++ s)%string].
Proof.
  revert cur. induction s as [|c s IH]; intros cur Hno; simpl.
  - f_equal. induction cur as [|d cur IHc]; [done|]. simpl. by f_equal.
  - simpl in Hno. apply orb_false_iff in Hno as [Hp Hno].
    rewrite Hp, (IH _ Hno). f_equal. unfold Py.snoc.
    induction cur as [|d cur IHc]; [done|]. simpl. by f_equal.
Qed.

Lemma read_article_one_sentence (EOS_ID : Z) (max_sent : nat)
    (source target : string) (article : Seq3Seq.example) :
  occurs (String " " (Py.str EOS_ID ++ " ")) source = false ->
  Seq3Seq.read_article EOS_ID max_sent source target = Ok article ->
  length article.1 = 1%nat.
Proof.
  intros Hno. unfold Seq3Seq.read_article, Py.split_sep. simpl.
  rewrite (split_sep_from_absent _ _ _ Hno). simpl.
  destruct (Py.map_result Py.int (Py.split source)); simpl; [|done].
  destruct (Py.map_result Py.int (Py.split target)); simpl; [|done].
  by intros [= <-].
Qed.




(** ** What the loaders keep true of the data set *)

Section HierarchicalInvariant.

Variable EOS_ID : Z.
Variable max_sent : nat.
Variable buckets : list (nat * nat).

Lemma store_article_inv (article : Seq3Seq.example)
    (data data' : Seq3Seq.data_set) :
  Seq3Seq.store_article buckets article data = Ok data' ->
  data' = data
  \/ exists b bucket stored,
      buckets !! b = Some bucket
      /\ overflows bucket article = true
      /\ data !! b = Some stored
      /\ data' = <[b := stored ++ [trimmed bucket article]]> data.
Proof.
  intros Hstore.
  destruct (store_article_cases article data buckets)
    as [Hsame|(b & bucket & Hb & Hfit & _ & Happ)].
  - left. congruence.
  - right. rewrite Happ in Hstore.
    apply append_at_inv in Hstore as (stored & Hs & ->).
    by exists b, bucket, stored.
Qed.

Lemma store_article_trimmed_to (article : Seq3Seq.example)
    (data data' : Seq3Seq.data_set) :
  trimmed_to buckets data ->
  Seq3Seq.store_article buckets article data = Ok data' ->
  trimmed_to buckets data' /\ length data' = length data.
Proof.
  intros Hinv Hstore.
  apply store_article_inv in Hstore
    as [->|(b & bucket & stored & Hb & Hfit & Hs & ->)]; [done|].
  split; [|apply length_insert].
  intros b0 bucket0 stored0 ex Hb0 Hs0 Hex. unfold Seq3Seq.data_set in *.
  destruct (decide (b0 = b)) as [->|Hne].
  - rewrite list_lookup_insert_eq in Hs0 by (by eapply lookup_lt_Some).
    injection Hs0 as <-. rewrite Hb in Hb0. injection Hb0 as <-.
    apply elem_of_app in Hex as [Hex|Hex]; [by eapply Hinv|].
    apply list_elem_of_singleton in Hex as ->.
    unfold overflows in Hfit. apply andb_true_iff in Hfit as [Hf1 Hf2].
    apply Nat.ltb_lt in Hf1, Hf2. unfold trimmed. simpl.
    split; [apply length_take_le; lia|done].
  - rewrite list_lookup_insert_ne in Hs0 by done. by eapply Hinv.
Qed.

Lemma hierarchical_read_loop_inv (max_size : option Z)
    (source_file target_file : list string) (counter : Z)
    (data data' : Seq3Seq.data_set) :
  trimmed_to buckets data ->
  Seq3Seq.read_loop EOS_ID max_sent buckets max_size
    source_file target_file counter data = Ok data' ->
  trimmed_to buckets data' /\ length data' = length data.
Proof.
  revert target_file counter data.
  induction source_file as [|source source_file IH];
    intros target_file counter data Hinv Hread.
  - simpl in Hread. by injection Hread as <-.
  - destruct target_file as [|target target_file].
    { simpl in Hread. by injection Hread as <-. }
    simpl in Hread.
    destruct (Py.truthy source && Py.truthy target
              && Seq3Seq.within_limit max_size counter);
      [|by injection Hread as <-].
    destruct (Seq3Seq.read_article EOS_ID max_sent source target)
      as [article|e]; simpl in Hread; [|done].
    destruct (Seq3Seq.store_article buckets article data)
      as [data1|e] eqn:Hstore; simpl in Hread; [|done].
    destruct (store_article_trimmed_to _ _ _ Hinv Hstore) as [Hinv1 Hlen1].
    destruct (IH _ _ _ Hinv1 Hread) as [Hinv' Hlen'].
    split; [done|congruence].
Qed.

Lemma hierarchical_read_data_inv (source_content target_content : string)
    (max_size : option Z) (data : Seq3Seq.data_set) :
  Seq3Seq.read_data_with EOS_ID max_sent buckets
    source_content target_content max_size = Ok data ->
  trimmed_to buckets data /\ length data = length buckets.
Proof.
  unfold Seq3Seq.read_data_with. intros Hread.
  apply hierarchical_read_loop_inv in Hread as [Hinv Hlen].
  - split; [done|]. by rewrite Hlen, length_replicate.
  - intros b bucket stored ex _ Hs Hex.
    apply lookup_replicate in Hs as [-> _]. by apply elem_of_nil in Hex.
Qed.

(** With source capacities that differ from bucket to bucket, a data set
    whose examples fill their bucket holds no example twice. *)
Lemma trimmed_to_disjoint (data : Seq3Seq.data_set) :
  NoDup (fst <$> buckets) ->
  length data = length buckets ->
  trimmed_to buckets data ->
  buckets_disjoint data.
Proof.
  intros Hnodup Hlen Hinv b b' stored stored' ex Hs Hs' Hex Hex'.
  assert (is_Some (buckets !! b)) as [bucket Hb].
  { apply lookup_lt_is_Some. rewrite <- Hlen. by eapply lookup_lt_Some. }
  assert (is_Some (buckets !! b')) as [bucket' Hb'].
  { apply lookup_lt_is_Some. rewrite <- Hlen. by eapply lookup_lt_Some. }
  destruct (Hinv b bucket stored ex Hb Hs Hex) as [H1 _].
  destruct (Hinv b' bucket' stored' ex Hb' Hs' Hex') as [H1' _].
  eapply (NoDup_lookup (fst <$> buckets) b b' (length ex.1)); [done| |].
  - by rewrite list_lookup_fmap, Hb, H1.
  - by rewrite list_lookup_fmap, Hb', H1'.
Qed.

End HierarchicalInvariant.

Section FlatInvariant.

Variable EOS_ID : Z.
Variables truncate_in truncate_out : nat.

Lemma read_pair_source_length (source target : string)
    (pair : Seq2Seq.example) :
  Seq2Seq.read_pair EOS_ID truncate_in truncate_out source target = Ok pair ->
  (length pair.1 <= truncate_in)%nat.
Proof.
  unfold Seq2Seq.read_pair.
  destruct (Py.map_result Py.int (take truncate_in (Py.split source)))
    as [source_ids|e] eqn:Hs; simpl; [|done].
  destruct (Py.map_result Py.int (take truncate_out (Py.split target)))
    as [target_ids|e]; simpl; [|done].
  intros [= <-]. simpl. apply map_result_length in Hs. rewrite Hs.
  apply firstn_le_length.
Qed.

Lemma flat_read_loop_inv (max_size : option Z)
    (source_file target_file : list string) (counter : Z)
    (stored : list Seq2Seq.example) (data' : Seq2Seq.data_set) :
  (forall ex, ex ∈ stored -> (length ex.1 <= truncate_in)%nat) ->
  Seq2Seq.read_loop EOS_ID max_size truncate_in truncate_out
    source_file target_file counter [stored] = Ok data' ->
  exists stored',
    data' = [stored']
    /\ forall ex, ex ∈ stored' -> (length ex.1 <= truncate_in)%nat.
Proof.
  revert target_file counter stored.
  induction source_file as [|source source_file IH];
    intros target_file counter stored Hinv Hread.
  - simpl in Hread. injection Hread as <-. eauto.
  - destruct target_file as [|target target_file].
    { simpl in Hread. injection Hread as <-. eauto. }
    simpl in Hread.
    destruct (Py.truthy source && Py.truthy target
              && Seq2Seq.within_limit max_size counter);
      [|injection Hread as <-; eauto].
    destruct (Seq2Seq.read_pair EOS_ID truncate_in truncate_out source target)
      as [pair|e] eqn:Hpair; simpl in Hread; [|done].
    apply (IH _ _ _) in Hread; [done|].
    intros ex Hex. apply elem_of_app in Hex as [Hex|Hex]; [auto|].
    apply list_elem_of_singleton in Hex as ->.
    by eapply read_pair_source_length.
Qed.

End FlatInvariant.

(** C1, as the code has it. Each article or line pair is stored in at most
    one bucket. In the hierarchical loader an example of bucket [b] has
    exactly as many sentences as the source capacity of [b] and a target
    (end-of-sequence id included) strictly shorter than its target
    capacity, and no example lies in two buckets. In the flat loader every
    example lies in the one bucket, with a source of at most [truncate_in]
    tokens, which is the source capacity of the bucket for the lengths that
    [train] and [decode] ask for. *)
Theorem loaders_store_each_example_in_one_bucket :
  (forall EOS_ID max_sent source_content target_content max_size data,
      Seq3Seq.read_data EOS_ID max_sent source_content target_content
        max_size = Ok data ->
      length data = length Seq3Seq._buckets
      /\ trimmed_to Seq3Seq._buckets data
      /\ buckets_disjoint data)
  /\ (forall article data data',
        Seq3Seq.store_article Seq3Seq._buckets article data = Ok data' ->
        data' = data
        \/ exists b bucket stored,
            Seq3Seq._buckets !! b = Some bucket
            /\ overflows bucket article = true
            /\ data !! b = Some stored
            /\ data' = <[b := stored ++ [trimmed bucket article]]> data)
  /\ (forall EOS_ID source_content target_content max_size
             truncate_in truncate_out data,
        Seq2Seq.read_data EOS_ID source_content target_content max_size
          truncate_in truncate_out = Ok data ->
        exists stored,
          data = [stored]
          /\ forall ex, ex ∈ stored -> (length ex.1 <= truncate_in)%nat)
  /\ (forall EOS_ID source_content target_content max_size data,
        Seq2Seq.read_data EOS_ID source_content target_content max_size
          200 48 = Ok data ->
        buckets_disjoint data
        /\ forall b bucket stored ex,
            Seq2Seq._buckets !! b = Some bucket ->
            data !! b = Some stored -> ex ∈ stored ->
            (length ex.1 <= bucket.1)%nat).
Proof.
  assert (forall EOS_ID source_content target_content max_size
                 truncate_in truncate_out data,
             Seq2Seq.read_data EOS_ID source_content target_content max_size
               truncate_in truncate_out = Ok data ->
             exists stored,
               data = [stored]
               /\ forall ex, ex ∈ stored -> (length ex.1 <= truncate_in)%nat)
    as Hflat.
  { intros EOS_ID source_content target_content max_size
           truncate_in truncate_out data Hread.
    unfold Seq2Seq.read_data, Seq2Seq.read_data_with in Hread.
    simpl in Hread. apply flat_read_loop_inv in Hread; [done|].
    intros ex Hex. by apply elem_of_nil in Hex. }
  split; [|split; [|split; [done|]]].
  - intros EOS_ID max_sent source_content target_content max_size data Hread.
    apply hierarchical_read_data_inv in Hread as [Hinv Hlen].
    split; [done|]. split; [done|].
    apply (trimmed_to_disjoint Seq3Seq._buckets); [|done|done].
    apply (bool_decide_unpack _). by vm_compute.
  - intros article data data'. apply store_article_inv.
  - intros EOS_ID source_content target_content max_size data Hread.
    apply Hflat in Hread as (stored0 & -> & Hlen). split.
    + intros b b' stored stored' ex Hs Hs' _ _.
      apply lookup_lt_Some in Hs, Hs'. simpl in Hs, Hs'. lia.
    + intros b bucket stored ex Hb Hs Hex.
      destruct b as [|b]; [|done].
      injection Hb as <-. injection Hs as <-. simpl. auto.
Qed.

Lemma not_strictly_within {A : Type} (buckets : list (nat * nat))
    (data : list (list (list A * list Z))) (b : nat) (bucket : nat * nat)
    (stored : list (list A * list Z)) (ex : list A * list Z) :
  buckets !! b = Some bucket ->
  data !! b = Some stored ->
  ex ∈ stored ->
  (bucket.1 <= length ex.1)%nat \/ (bucket.2 <= length ex.2)%nat ->
  ~ strictly_within buckets data.
Proof.
  intros Hb Hs Hex Hcase H. destruct (H b bucket stored ex Hb Hs Hex). lia.
Qed.

(** C1, as it is written, fails: the hierarchical loader stores an article
    of two sentences in the bucket of source capacity 1 with one sentence,
    which is not strictly below 1; the flat loader stores a source line of
    200 tokens in the bucket of source capacity 200, and of a target line
    of 48 tokens it stores 49 in the bucket of target capacity 48. *)
Lemma strict_capacity_counterexample :
  (exists data,
      Seq3Seq.read_data 2 250 "4 2 5
" "7 8
" None = Ok data
      /\ ~ strictly_within Seq3Seq._buckets data)
  /\ (exists data,
        Seq2Seq.read_data 2 (line_of 200) "7 8
" None 200 48 = Ok data
        /\ ~ strictly_within Seq2Seq._buckets data)
  /\ (exists data,
        Seq2Seq.read_data 2 "4 5 6
" (line_of 48) None 200 48 = Ok data
        /\ ~ strictly_within Seq2Seq._buckets data).
Proof.
  split; [|split].
  - eexists. split; [vm_compute; reflexivity|].
    eapply (not_strictly_within _ _ O);
      [reflexivity|reflexivity|apply list_elem_of_here|].
    left. vm_compute. lia.
  - eexists. split; [vm_compute; reflexivity|].
    eapply (not_strictly_within _ _ O);
      [reflexivity|reflexivity|apply list_elem_of_here|].
    left. vm_compute. lia.
  - eexists. split; [vm_compute; reflexivity|].
    eapply (not_strictly_within _ _ O);
      [reflexivity|reflexivity|apply list_elem_of_here|].
    right. vm_compute. lia.
Qed.

(** * Further properties *)

(** ** Cutting at the end-of-sequence id, whatever the outputs *)

Lemma contains_first (x : Z) (l : list Z) :
  Py.contains x l = true ->
  exists k, l !! k = Some x /\ forall j, (j < k)%nat -> l !! j <> Some x.
Proof.
  induction l as [|y l IH]; [done|]. simpl.
  destruct (Z.eqb_spec y x) as [->|Hne]; simpl.
  - intros _. exists O. split; [done|]. intros j Hj. lia.
  - intros Hc. destruct (IH Hc) as (k & Hk & Hfirst).
    exists (S k). split; [done|].
    intros [|j] Hj; simpl; [congruence|]. apply Hfirst. lia.
Qed.

Lemma contains_in (x : Z) (l : list Z) :
  Py.contains x l = true <-> In x l.
Proof.
  induction l as [|y l IH]; simpl; [split; [done|tauto]|].
  rewrite orb_true_iff, IH, Z.eqb_eq. tauto.
Qed.

Lemma cut_at_eos_cases (EOS_ID : Z) (outputs : list Z) :
  exists kept,
    Decode.cut_at_eos EOS_ID outputs = Ok kept
    /\ ~ In EOS_ID kept
    /\ ((~ In EOS_ID outputs /\ kept = outputs)
        \/ exists rest, outputs = kept ++ EOS_ID :: rest).
Proof.
  destruct (Py.contains EOS_ID outputs) eqn:Hc.
  - destruct (contains_first _ _ Hc) as (k & Hk & Hfirst).
    exists (take k outputs).
    assert (~ In EOS_ID (take k outputs)) as Hnot.
    { intros Hin. apply list_elem_of_In, list_elem_of_lookup in Hin
        as (j & Hj).
      apply lookup_take_Some in Hj as [Hj Hlt]. by apply (Hfirst j). }
    split; [by apply cut_at_first|]. split; [done|].
    right. exists (drop (S k) outputs).
    rewrite <- (take_drop k outputs) at 1. f_equal.
    by apply drop_S.
  - assert (~ In EOS_ID outputs) as Hnot.
    { intros Hin. apply contains_in in Hin. congruence. }
    exists outputs. split; [by apply cut_without|]. split; [done|].
    by left.
Qed.

(** X1. The truncation of the decode driver never raises: the guarded
    [index] always finds the id. What it returns holds no end-of-sequence
    id, is either the outputs themselves or what stands before their first
    end-of-sequence id, and is left as it is by a second truncation. *)
Theorem cut_at_eos_total (EOS_ID : Z) (outputs : list Z) :
  exists kept,
    Decode.cut_at_eos EOS_ID outputs = Ok kept
    /\ ~ In EOS_ID kept
    /\ ((~ In EOS_ID outputs /\ kept = outputs)
        \/ exists rest, outputs = kept ++ EOS_ID :: rest)
    /\ (length kept <= length outputs)%nat
    /\ Decode.cut_at_eos EOS_ID kept = Ok kept.
Proof.
  destruct (cut_at_eos_cases EOS_ID outputs)
    as (kept & Hcut & Hnot & Hprefix).
  exists kept. split; [done|]. split; [done|]. split; [done|]. split.
  - destruct Hprefix as [[_ ->]|[rest ->]]; [lia|].
    rewrite length_app. simpl. lia.
  - by apply cut_without.
Qed.

(** ** The bucket scale *)

Lemma map_result_lookup {A B : Type} (f : A -> result B) (l : list A)
    (ys : list B) (i : nat) (y : B) :
  Py.map_result f l = Ok ys -> ys !! i = Some y ->
  exists x, l !! i = Some x /\ f x = Ok y.
Proof.
  revert ys i. induction l as [|x l IH]; intros ys i H Hy.
  - simpl in H. injection H as <-. done.
  - apply map_result_cons_inv in H as (y0 & ys' & -> & Hx & Hl).
    destruct i as [|i]; simpl in *.
    + injection Hy as <-. eauto.
    + eauto.
Qed.

Lemma sum_list_snoc (l : list nat) (n : nat) :
  sum_list (l ++ [n]) = (sum_list l + n)%nat.
Proof. induction l as [|x l IH]; simpl; [lia|]. rewrite IH. lia. Qed.

(** A quotient of zero is not above a draw that is not negative. *)
Lemma zero_quotient_not_above (r total : float) :
  PrimFloat.leb 0 r = true ->
  PrimFloat.ltb r (PrimFloat.div 0 total) = false.
Proof.
  rewrite FloatAxioms.leb_spec, FloatAxioms.ltb_spec, FloatAxioms.div_spec.
  change (Prim2SF 0) with (S754_zero false).
  destruct (Prim2SF total) as [s|s| |s m e],
           (Prim2SF r) as [s'|s'| |s' m' e'];
    simpl; try done; destruct s; try destruct s'; simpl; done.
Qed.

Lemma scale_entry (sizes : list nat) (scale : list float) (i : nat)
    (s : float) :
  Loop.train_buckets_scale sizes = Ok scale ->
  scale !! i = Some s ->
  (i < length sizes)%nat
  /\ s = PrimFloat.div
           (Loop.float_of_int (Z.of_nat (sum_list (take (S i) sizes))))
           (Loop.float_of_int (Z.of_nat (sum_list sizes))).
Proof.
  unfold Loop.train_buckets_scale. intros Hscale Hs.
  destruct (map_result_lookup _ _ _ _ _ Hscale Hs) as (j & Hj & Hdiv).
  apply lookup_seq in Hj as [-> Hlt]. simpl in Hdiv.
  split; [done|]. unfold Loop.truediv in Hdiv.
  destruct (PrimFloat.eqb _ 0); [done|]. by injection Hdiv as <-.
Qed.

Lemma scale_length (sizes : list nat) (scale : list float) :
  Loop.train_buckets_scale sizes = Ok scale -> length scale = length sizes.
Proof.
  unfold Loop.train_buckets_scale. intros H.
  apply map_result_length in H. by rewrite H, length_seq.
Qed.

Lemma choose_bucket_inv (scale : list float) (r : float) (i : nat) :
  Train.choose_bucket scale r = Ok i ->
  (exists s, scale !! i = Some s /\ PrimFloat.ltb r s = true)
  /\ forall j s, (j < i)%nat -> scale !! j = Some s ->
                 PrimFloat.ltb r s = false.
Proof.
  unfold Train.choose_bucket, Train.above. intros Hmin.
  apply min_spec in Hmin as [Hin Hleast].
  apply filter_In in Hin as [Hin Hp]. split.
  - destruct (scale !! i) as [s|]; [eauto|done].
  - intros j s Hj Hs. destruct (PrimFloat.ltb r s) eqn:Hlt; [|done].
    assert (In j (List.filter
                    (fun i => match scale !! i with
                              | Some s => PrimFloat.ltb r s
                              | None => false
                              end) (seq 0 (length scale)))) as Hjin.
    { apply filter_In. split.
      - apply in_seq. apply lookup_lt_Some in Hs. lia.
      - by rewrite Hs. }
    apply Hleast in Hjin. lia.
Qed.

(** X2. The bucket that the training loop draws is never empty: with the
    scale computed from the bucket sizes and a draw that is not negative,
    the chosen bucket holds at least one example, so that a batch can be
    sampled from it. *)
Theorem drawn_bucket_is_not_empty (train_bucket_sizes : list nat)
    (train_buckets_scale : list float) (random_number_01 : float)
    (bucket_id : nat) :
  Loop.train_buckets_scale train_bucket_sizes = Ok train_buckets_scale ->
  PrimFloat.leb 0 random_number_01 = true ->
  Train.choose_bucket train_buckets_scale random_number_01 = Ok bucket_id ->
  exists size,
    train_bucket_sizes !! bucket_id = Some size /\ (0 < size)%nat.
Proof.
  intros Hscale Hr Hchoose.
  apply choose_bucket_inv in Hchoose as [(s & Hs & Hlt) Hleast].
  destruct (scale_entry _ _ _ _ Hscale Hs) as [Hlen ->].
  destruct (lookup_lt_is_Some_2 train_bucket_sizes bucket_id Hlen)
    as [size Hsize].
  exists size. split; [done|].
  destruct size as [|size]; [exfalso|lia].
  rewrite (take_S_r _ _ _ Hsize), sum_list_snoc, Nat.add_0_r in Hlt.
  destruct bucket_id as [|j].
  - rewrite take_0 in Hlt. simpl in Hlt.
    change (Loop.float_of_int (Z.of_nat 0)) with 0%float in Hlt.
    by rewrite zero_quotient_not_above in Hlt.
  - assert (j < length train_buckets_scale)%nat as Hj
        by (rewrite (scale_length _ _ Hscale); lia).
    destruct (lookup_lt_is_Some_2 _ _ Hj) as [s' Hs'].
    destruct (scale_entry _ _ _ _ Hscale Hs') as [_ ->].
    rewrite (Hleast j _ (Nat.lt_succ_diag_r j) Hs') in Hlt. done.
Qed.

Lemma drawn_bucket_is_not_empty_witness :
  exists size, [0; 3; 0; 1]%nat !! 1%nat = Some size /\ (0 < size)%nat.
Proof.
  apply (drawn_bucket_is_not_empty [0; 3; 0; 1]%nat
           [0; 0.75; 0.75; 1]%float 0.5%float 1);
    reflexivity.
Defined.

(** With at least one bucket and every bucket empty, the scale divides by
    zero. *)
Lemma scale_of_empty_sets {A : Type}
    (buckets : list (nat * nat)) (train_set : list (list A)) :
  buckets <> [] ->
  length train_set = length buckets ->
  Forall (fun examples => examples = []) train_set ->
  Loop.scale_of buckets train_set = Raise ZeroDivisionError.
Proof.
  intros Hne Hlen Hempty. unfold Loop.scale_of.
  assert (Loop.train_bucket_sizes buckets train_set
          = Ok (replicate (length buckets) O)) as ->.
  { unfold Loop.train_bucket_sizes. rewrite <- Hlen. clear Hlen Hne.
    assert (forall k rest,
               Forall (fun examples : list A => examples = []) rest ->
               Py.map_result
                 (fun b => match (replicate k [] ++ rest) !! b with
                           | Some examples => Ok (length examples)
                           | None => Raise IndexError
                           end) (seq k (length rest))
               = Ok (replicate (length rest) O)) as Hgen.
    { intros k rest Hrest. revert k.
      induction Hrest as [|x rest -> _ IH]; intros k; [done|].
      simpl. rewrite lookup_app_r, length_replicate, Nat.sub_diag
        by (rewrite length_replicate; lia).
      simpl.
      specialize (IH (S k)).
      replace (replicate (S k) [] ++ rest)
        with (replicate k ([] : list A) ++ [] :: rest) in IH.
      - by rewrite IH.
      - change (replicate k ([] : list A) ++ [] :: rest)
          with (replicate k ([] : list A) ++ [[]] ++ rest).
        rewrite app_assoc. f_equal.
        change [[]] with (replicate 1 ([] : list A)).
        rewrite <- replicate_add. f_equal. lia. }
    apply (Hgen O train_set Hempty). }
  simpl. unfold Loop.train_buckets_scale.
  rewrite sum_list_replicate, Nat.mul_0_r, length_replicate.
  destruct buckets as [|bucket buckets]; [done|]. simpl.
  reflexivity.
Qed.

(** ** The flat loader as a map over the line pairs *)

Section MapResultFacts.

Context {A B : Type} (f : A -> result B).

Lemma map_result_raise (l : list A) (e : exn) :
  Py.map_result f l = Raise e -> exists x, In x l /\ f x = Raise e.
Proof.
  induction l as [|x l IH]; [done|]. simpl.
  destruct (f x) as [y|e'] eqn:Hx.
  - destruct (Py.map_result f l) as [ys|e'']; [done|].
    intros [= <-]. destruct (IH eq_refl) as (x' & Hin & Hx').
    exists x'. tauto.
  - intros [= <-]. exists x. tauto.
Qed.

Lemma map_result_raises (l : list A) :
  raises (Py.map_result f l) <-> exists x, In x l /\ raises (f x).
Proof.
  split.
  - destruct (Py.map_result f l) as [ys|e] eqn:H; [done|]. intros _.
    apply map_result_raise in H as (x & Hin & Hx).
    exists x. by rewrite Hx.
  - intros (x & Hin & Hx). induction l as [|x' l IH]; [done|]. simpl.
    destruct (f x') as [y|e] eqn:Hx'; [|done].
    destruct Hin as [->|Hin]; [by rewrite Hx' in Hx|].
    specialize (IH Hin). by destruct (Py.map_result f l).
Qed.

End MapResultFacts.

Lemma int_raises_value_error (tok : string) (e : exn) :
  Py.int tok = Raise e -> e = ValueError.
Proof.
  unfold Py.int.
  destruct tok as [|c tok]; simpl.
  - by intros [= <-].
  - destruct (match c with
              | "-"%char => Z.opp <$> Py.unsigned_of tok
              | "+"%char => Py.unsigned_of tok
              | _ => Py.unsigned_of (String c tok)
              end); [done|]. by intros [= <-].
Qed.

Lemma ints_raise_value_error (toks : list string) (e : exn) :
  Py.map_result Py.int toks = Raise e -> e = ValueError.
Proof.
  intros H. apply map_result_raise in H as (tok & _ & Htok).
  by eapply int_raises_value_error.
Qed.

Section FlatAsMap.

Variable EOS_ID : Z.
Variables truncate_in truncate_out : nat.

Lemma flat_read_loop_as_map (max_size : option Z)
    (source_file target_file : list string) (counter : Z)
    (stored : list Seq2Seq.example) :
  Forall (fun l => Py.truthy l = true) source_file ->
  Forall (fun l => Py.truthy l = true) target_file ->
  Seq2Seq.read_loop EOS_ID max_size truncate_in truncate_out
    source_file target_file counter [stored]
  = match Py.map_result (flat_pair EOS_ID truncate_in truncate_out)
            (allowed max_size counter (zip source_file target_file)) with
    | Ok pairs => Ok [stored ++ pairs]
    | Raise e => Raise e
    end.
Proof.
  revert target_file counter stored.
  induction source_file as [|source source_file IH];
    intros target_file counter stored Hs Ht.
  - simpl. rewrite allowed_nil. simpl. by rewrite app_nil_r.
  - destruct target_file as [|target target_file].
    { simpl. rewrite allowed_nil. simpl. by rewrite app_nil_r. }
    apply Forall_cons in Hs as [Hs1 Hs]. apply Forall_cons in Ht as [Ht1 Ht].
    change (zip (source :: source_file) (target :: target_file))
      with ((source, target) :: zip source_file target_file).
    rewrite allowed_step. simpl. rewrite Hs1, Ht1. simpl.
    destruct (Seq2Seq.within_limit max_size counter);
      [|simpl; by rewrite app_nil_r].
    simpl. unfold flat_pair at 1. simpl.
    destruct (Seq2Seq.read_pair EOS_ID truncate_in truncate_out
                source target) as [pair|e]; simpl; [|done].
    rewrite (IH _ _ _ Hs Ht).
    destruct (Py.map_result _ _) as [pairs|e]; [|done].
    by rewrite <- app_assoc.
Qed.

Lemma flat_read_data_as_map (source_content target_content : string)
    (max_size : option Z) :
  Seq2Seq.read_data EOS_ID source_content target_content max_size
    truncate_in truncate_out
  = match Py.map_result (flat_pair EOS_ID truncate_in truncate_out)
            (allowed max_size 0
               (zip (Py.lines source_content) (Py.lines target_content)))
    with
    | Ok pairs => Ok [pairs]
    | Raise e => Raise e
    end.
Proof.
  unfold Seq2Seq.read_data, Seq2Seq.read_data_with. simpl.
  rewrite flat_read_loop_as_map by apply lines_from_truthy. done.
Qed.

Lemma allowed_length {A : Type} (max_size : option Z) (l : list A) :
  length (allowed max_size 0 l) = read_count max_size (length l).
Proof.
  unfold allowed, read_count. destruct max_size as [m|]; [|done].
  destruct (m =? 0); [done|]. rewrite length_take, Z.sub_0_r. lia.
Qed.

Lemma read_pair_raises (source target : string) :
  raises (Seq2Seq.read_pair EOS_ID truncate_in truncate_out source target)
  <-> bad_token_within truncate_in source
      \/ bad_token_within truncate_out target.
Proof.
  unfold Seq2Seq.read_pair, bad_token_within.
  rewrite <- !map_result_raises.
  destruct (Py.map_result Py.int (take truncate_in (Py.split source)));
    simpl; [|tauto].
  destruct (Py.map_result Py.int (take truncate_out (Py.split target)));
    simpl; tauto.
Qed.

End FlatAsMap.

(** X4. The flat loader stores one example for each line pair that it
    reads: as many as the shorter file has lines, and no more than a
    positive [max_size]. Blank lines count, and so does a last line
    without a line feed. *)
Theorem flat_loader_stores_one_example_per_pair (EOS_ID : Z)
    (source_content target_content : string) (max_size : option Z)
    (truncate_in truncate_out : nat) (data : Seq2Seq.data_set) :
  Seq2Seq.read_data EOS_ID source_content target_content max_size
    truncate_in truncate_out = Ok data ->
  exists stored,
    data = [stored]
    /\ length stored
       = read_count max_size
           (Nat.min (length (Py.lines source_content))
                    (length (Py.lines target_content)))
    /\ (forall m, max_size = Some m -> 0 < m ->
                  (length stored <= Z.to_nat m)%nat).
Proof.
  rewrite flat_read_data_as_map.
  destruct (Py.map_result _ _) as [pairs|e] eqn:Hmap; [|done].
  intros [= <-]. exists pairs. split; [done|].
  apply map_result_length in Hmap.
  rewrite allowed_length, length_zip in Hmap.
  split; [done|]. intros m -> Hm. rewrite Hmap. unfold read_count.
  destruct (Z.eqb_spec m 0); lia.
Qed.

Lemma flat_loader_stores_one_example_per_pair_witness :
  exists stored,
    [[([4; 5], [7; 2]); ([6], [8; 2])]] = [stored]
    /\ length stored
       = read_count (Some 2)
           (Nat.min (length (Py.lines "4 5
6

9")) (length (Py.lines "7
8
9
")))
    /\ (forall m, Some 2 = Some m -> 0 < m ->
                  (length stored <= Z.to_nat m)%nat).
Proof.
  apply (flat_loader_stores_one_example_per_pair 2 "4 5
6

9" "7
8
9
" (Some 2) 200 48).
  reflexivity.
Defined.

(** X5. The flat loader fails exactly when, in a line pair that it reads,
    one of the first [truncate_in] tokens of the source line or of the
    first [truncate_out] tokens of the target line is not an integer; it
    then raises [ValueError] and returns none of the examples read before.
    Tokens beyond the truncation and lines beyond [max_size] are never
    parsed. It raises no other exception. *)
Theorem flat_loader_fails_on_bad_token_only (EOS_ID : Z)
    (source_content target_content : string) (max_size : option Z)
    (truncate_in truncate_out : nat) :
  let read :=
    Seq2Seq.read_data EOS_ID source_content target_content max_size
      truncate_in truncate_out in
  (raises read
   <-> exists source target,
        In (source, target)
           (allowed max_size 0
              (zip (Py.lines source_content) (Py.lines target_content)))
        /\ (bad_token_within truncate_in source
            \/ bad_token_within truncate_out target))
  /\ (forall e, read = Raise e -> e = ValueError).
Proof.
  intros read. subst read. rewrite flat_read_data_as_map. split.
  - transitivity
      (raises (Py.map_result
                 (flat_pair EOS_ID truncate_in truncate_out)
                 (allowed max_size 0
                    (zip (Py.lines source_content)
                       (Py.lines target_content))))).
    { by destruct (Py.map_result _ _). }
    rewrite map_result_raises. split.
    + intros ([source target] & Hin & Hr). exists source, target.
      split; [done|]. by apply read_pair_raises in Hr.
    + intros (source & target & Hin & Hbad). exists (source, target).
      split; [done|]. by apply read_pair_raises.
  - intros e.
    destruct (Py.map_result _ _) as [pairs|e'] eqn:Hmap; [done|].
    intros [= <-].
    apply map_result_raise in Hmap as ([source target] & _ & Hpair).
    unfold flat_pair, Seq2Seq.read_pair in Hpair. simpl in Hpair.
    destruct (Py.map_result Py.int (take truncate_in (Py.split source)))
      as [xs|e1] eqn:H1; simpl in Hpair.
    + destruct (Py.map_result Py.int (take truncate_out (Py.split target)))
        as [ys|e2] eqn:H2; simpl in Hpair; [done|].
      injection Hpair as <-. by eapply ints_raise_value_error.
    + injection Hpair as <-. by eapply ints_raise_value_error.
Qed.

(** ** The limit on the lines read *)

Lemma flat_read_loop_limit_ext (EOS_ID : Z) (max_size max_size' : option Z)
    (truncate_in truncate_out : nat)
    (source_file target_file : list string) (counter : Z)
    (data : Seq2Seq.data_set) :
  (forall c, Seq2Seq.within_limit max_size c
             = Seq2Seq.within_limit max_size' c) ->
  Seq2Seq.read_loop EOS_ID max_size truncate_in truncate_out
    source_file target_file counter data
  = Seq2Seq.read_loop EOS_ID max_size' truncate_in truncate_out
      source_file target_file counter data.
Proof.
  intros Hext. revert target_file counter data.
  induction source_file as [|source source_file IH];
    intros target_file counter data; [done|].
  destruct target_file as [|target target_file]; [done|].
  simpl. rewrite Hext.
  destruct (Py.truthy source && Py.truthy target
            && Seq2Seq.within_limit max_size' counter); [|done].
  destruct (Seq2Seq.read_pair _ _ _ _ _) as [pair|e]; simpl; [|done].
  destruct (Py.append_at 0 pair data) as [data'|e]; simpl; [|done].
  apply IH.
Qed.

Lemma hierarchical_read_loop_limit_ext (EOS_ID : Z) (max_sent : nat)
    (buckets : list (nat * nat)) (max_size max_size' : option Z)
    (source_file target_file : list string) (counter : Z)
    (data : Seq3Seq.data_set) :
  (forall c, Seq3Seq.within_limit max_size c
             = Seq3Seq.within_limit max_size' c) ->
  Seq3Seq.read_loop EOS_ID max_sent buckets max_size
    source_file target_file counter data
  = Seq3Seq.read_loop EOS_ID max_sent buckets max_size'
      source_file target_file counter data.
Proof.
  intros Hext. revert target_file counter data.
  induction source_file as [|source source_file IH];
    intros target_file counter data; [done|].
  destruct target_file as [|target target_file]; [done|].
  simpl. rewrite Hext.
  destruct (Py.truthy source && Py.truthy target
            && Seq3Seq.within_limit max_size' counter); [|done].
  destruct (Seq3Seq.read_article _ _ _ _) as [article|e]; simpl; [|done].
  destruct (Seq3Seq.store_article buckets article data) as [data'|e];
    simpl; [|done].
  apply IH.
Qed.

(** X6. For both loaders a [max_size] of [0] is no limit, as [None] is, and
    a negative [max_size] reads nothing: the loader returns empty buckets
    whatever the files hold, without parsing a line. *)
Theorem max_size_zero_is_no_limit_negative_reads_nothing (EOS_ID : Z)
    (max_sent : nat) (source_content target_content : string)
    (truncate_in truncate_out : nat) :
  Seq2Seq.read_data EOS_ID source_content target_content (Some 0)
    truncate_in truncate_out
  = Seq2Seq.read_data EOS_ID source_content target_content None
      truncate_in truncate_out
  /\ Seq3Seq.read_data EOS_ID max_sent source_content target_content
       (Some 0)
     = Seq3Seq.read_data EOS_ID max_sent source_content target_content None
  /\ (forall m, m < 0 ->
        Seq2Seq.read_data EOS_ID source_content target_content (Some m)
          truncate_in truncate_out = Ok [[]]
        /\ Seq3Seq.read_data EOS_ID max_sent source_content target_content
             (Some m) = Ok (replicate 6 [])).
Proof.
  split; [|split].
  - by apply flat_read_loop_limit_ext.
  - by apply hierarchical_read_loop_limit_ext.
  - intros m Hm.
    assert (forall c, 0 <= c -> (m =? 0) || (c <? m) = false) as Hlim.
    { intros c Hc. apply orb_false_iff. split; [lia|].
      apply Z.ltb_ge. lia. }
    split.
    + unfold Seq2Seq.read_data, Seq2Seq.read_data_with.
      destruct (Py.lines source_content) as [|source source_file]; [done|].
      destruct (Py.lines target_content) as [|target target_file]; [done|].
      simpl. rewrite (Hlim 0) by lia. by rewrite !andb_false_r.
    + unfold Seq3Seq.read_data, Seq3Seq.read_data_with.
      destruct (Py.lines source_content) as [|source source_file]; [done|].
      destruct (Py.lines target_content) as [|target target_file]; [done|].
      simpl. rewrite (Hlim 0) by lia. by rewrite !andb_false_r.
Qed.

(** ** A last line without a line feed *)

Lemma split_from_line_feed (s cur : string) :
  Py.split_from cur (s ++ String "010" EmptyString) = Py.split_from cur s.
Proof.
  revert cur. induction s as [|c s IH]; intros cur; simpl.
  - by destruct (Py.is_empty cur).
  - rewrite !IH. done.
Qed.

Lemma lines_from_unterminated (s cur : string) :
  unterminated s = true \/ (s = EmptyString /\ Py.is_empty cur = false) ->
  exists init last,
    Py.lines_from cur s = init ++ [last]
    /\ Py.lines_from cur (s ++ String "010" EmptyString)
       = init ++ [(last ++ String "010" EmptyString)%string].
Proof.
  revert cur. induction s as [|c s IH]; intros cur Hcase.
  - destruct Hcase as [Hu|[_ Hcur]]; [done|]. simpl. rewrite Hcur.
    exists [], cur. done.
  - destruct Hcase as [Hu|[Hs _]]; [|done].
    assert (unterminated s = true
            \/ (s = EmptyString /\ Ascii.eqb c "010" = false)) as Hs.
    { simpl in Hu. destruct s as [|d s]; [|by left].
      right. split; [done|]. by destruct (Ascii.eqb c "010"). }
    simpl. destruct (Ascii.eqb c "010") eqn:Hc.
    + destruct Hs as [Hs|[_ Hs]]; [|done].
      destruct (IH EmptyString (or_introl Hs)) as (init & last & H1 & H2).
      exists (Py.snoc cur c :: init), last. by rewrite H1, H2.
    + apply IH. destruct Hs as [Hs|[Hs _]]; [by left|].
      right. split; [done|]. unfold Py.snoc. by destruct cur.
Qed.

Lemma flat_read_loop_pairs_ext (EOS_ID : Z) (max_size : option Z)
    (truncate_in truncate_out : nat)
    (source_file source_file' target_file target_file' : list string)
    (counter : Z) (data : Seq2Seq.data_set) :
  Forall2 (fun l l' => Py.truthy l = Py.truthy l'
                       /\ Py.split l = Py.split l')
    source_file source_file' ->
  Forall2 (fun l l' => Py.truthy l = Py.truthy l'
                       /\ Py.split l = Py.split l')
    target_file target_file' ->
  Seq2Seq.read_loop EOS_ID max_size truncate_in truncate_out
    source_file target_file counter data
  = Seq2Seq.read_loop EOS_ID max_size truncate_in truncate_out
      source_file' target_file' counter data.
Proof.
  intros Hs. revert target_file target_file' counter data.
  induction Hs as [|source source' source_file source_file' [Hst Hss] _ IH];
    intros target_file target_file' counter data Ht.
  - by destruct Ht.
  - destruct Ht as [|target target' target_file target_file' [Htt Hts] Ht];
      [done|].
    simpl. rewrite Hst, Htt.
    destruct (Py.truthy source' && Py.truthy target'
              && Seq2Seq.within_limit max_size counter); [|done].
    unfold Seq2Seq.read_pair. rewrite Hss, Hts.
    destruct (Py.map_result Py.int (take truncate_in (Py.split source')))
      as [xs|e]; simpl; [|done].
    destruct (Py.map_result Py.int (take truncate_out (Py.split target')))
      as [ys|e]; simpl; [|done].
    destruct (Py.append_at 0 _ data) as [data'|e]; simpl; [|done].
    by apply IH.
Qed.

Lemma lines_line_feed_ext (content : string) :
  unterminated content = true ->
  Forall2 (fun l l' => Py.truthy l = Py.truthy l'
                       /\ Py.split l = Py.split l')
    (Py.lines (content ++ String "010" EmptyString)) (Py.lines content).
Proof.
  intros Hu. unfold Py.lines.
  destruct (lines_from_unterminated content EmptyString (or_introl Hu))
    as (init & last & H1 & H2).
  pose proof (lines_from_truthy EmptyString content) as Hall.
  rewrite H1 in Hall. apply Forall_app in Hall as [_ Hall].
  apply Forall_cons in Hall as [Hlast _].
  rewrite H1, H2. apply Forall2_app.
  - clear. induction init; constructor; auto.
  - constructor; [|constructor]. split.
    + rewrite Hlast. by destruct last.
    + apply split_from_line_feed.
Qed.

(** X7. A last line without a line feed is loaded like any other: adding
    the missing line feed to the source file or to the target file changes
    nothing of what the flat loader returns. *)
Theorem flat_loader_reads_unterminated_last_line (EOS_ID : Z)
    (source_content target_content : string) (max_size : option Z)
    (truncate_in truncate_out : nat) :
  (unterminated source_content = true ->
   Seq2Seq.read_data EOS_ID
     (source_content ++ String "010" EmptyString) target_content
     max_size truncate_in truncate_out
   = Seq2Seq.read_data EOS_ID source_content target_content
       max_size truncate_in truncate_out)
  /\ (unterminated target_content = true ->
      Seq2Seq.read_data EOS_ID source_content
        (target_content ++ String "010" EmptyString)
        max_size truncate_in truncate_out
      = Seq2Seq.read_data EOS_ID source_content target_content
          max_size truncate_in truncate_out).
Proof.
  assert (forall file : list string,
             Forall2 (fun l l' => Py.truthy l = Py.truthy l'
                                  /\ Py.split l = Py.split l') file file)
    as Hrefl.
  { induction file; constructor; auto. }
  unfold Seq2Seq.read_data, Seq2Seq.read_data_with. split; intros Hu.
  - apply flat_read_loop_pairs_ext; [by apply lines_line_feed_ext|done].
  - apply flat_read_loop_pairs_ext; [done|by apply lines_line_feed_ext].
Qed.

Lemma flat_loader_reads_unterminated_last_line_witness :
  Seq2Seq.read_data 2 "4 5
6 7
" "8
9" None 200 48
  = Ok [[([4; 5], [8; 2]); ([6; 7], [9; 2])]].
Proof.
  destruct (flat_loader_reads_unterminated_last_line 2 "4 5
6 7
" "8
9" None 200 48) as [_ H].
  rewrite <- H; reflexivity.
Defined.

(** ** What the hierarchical loader stores *)

Lemma sentence_row_padded (max_sent : nat) (sent : list Z) :
  padded_row max_sent (Seq3Seq.sentence_row max_sent sent)
  /\ length (Seq3Seq.sentence_row max_sent sent) = S max_sent.
Proof.
  unfold Seq3Seq.sentence_row, padded_row. split.
  - exists (take max_sent sent). rewrite length_take. split; [lia|].
    simpl. f_equal; [f_equal; lia|]. f_equal. f_equal. lia.
  - simpl. rewrite length_app, length_take, length_replicate. lia.
Qed.

Lemma read_article_inv (EOS_ID : Z) (max_sent : nat)
    (source target : string) (article : Seq3Seq.example) :
  Seq3Seq.read_article EOS_ID max_sent source target = Ok article ->
  exists source_sents target_ids,
    article = (map (Seq3Seq.sentence_row max_sent) source_sents,
               target_ids ++ [EOS_ID])
    /\ Py.map_result Py.int (Py.split target) = Ok target_ids.
Proof.
  unfold Seq3Seq.read_article.
  destruct (Py.split_sep _ source) as [source_strings|e]; simpl; [|done].
  destruct (Py.map_result _ source_strings) as [source_sents|e];
    simpl; [|done].
  destruct (Py.map_result Py.int (Py.split target)) as [target_ids|e];
    simpl; [|done].
  intros [= <-]. eauto.
Qed.

Section HierarchicalExamples.

Variable EOS_ID : Z.
Variable max_sent : nat.
Variable buckets : list (nat * nat).
Variable P : Seq3Seq.example -> Prop.

Hypothesis P_trimmed :
  forall source target article bucket,
    Seq3Seq.read_article EOS_ID max_sent source target = Ok article ->
    P (trimmed bucket article).

Lemma hierarchical_read_loop_examples (max_size : option Z)
    (source_file target_file : list string) (counter : Z)
    (data data' : Seq3Seq.data_set) :
  (forall b stored ex, data !! b = Some stored -> ex ∈ stored -> P ex) ->
  Seq3Seq.read_loop EOS_ID max_sent buckets max_size
    source_file target_file counter data = Ok data' ->
  forall b stored ex, data' !! b = Some stored -> ex ∈ stored -> P ex.
Proof.
  revert target_file counter data.
  induction source_file as [|source source_file IH];
    intros target_file counter data Hinv Hread.
  - simpl in Hread. by injection Hread as <-.
  - destruct target_file as [|target target_file].
    { simpl in Hread. by injection Hread as <-. }
    simpl in Hread.
    destruct (Py.truthy source && Py.truthy target
              && Seq3Seq.within_limit max_size counter);
      [|by injection Hread as <-].
    destruct (Seq3Seq.read_article EOS_ID max_sent source target)
      as [article|e] eqn:Harticle; simpl in Hread; [|done].
    destruct (Seq3Seq.store_article buckets article data)
      as [data1|e] eqn:Hstore; simpl in Hread; [|done].
    apply (IH _ _ _) with (2 := Hread).
    apply store_article_inv in Hstore
      as [->|(b1 & bucket & stored1 & _ & _ & Hs1 & ->)]; [done|].
    intros b stored ex Hs Hex. unfold Seq3Seq.data_set in *.
    destruct (decide (b = b1)) as [->|Hne].
    + rewrite list_lookup_insert_eq in Hs by (by eapply lookup_lt_Some).
      injection Hs as <-.
      apply elem_of_app in Hex as [Hex|Hex]; [by eapply Hinv|].
      apply list_elem_of_singleton in Hex as ->. by eapply P_trimmed.
    + rewrite list_lookup_insert_ne in Hs by done. by eapply Hinv.
Qed.

End HierarchicalExamples.

(** X8. Every sentence row that the hierarchical loader stores has the
    same shape: the length of the sentence, clipped at [max_sent], then
    that many tokens, then zeros up to [max_sent] tokens, which makes
    [max_sent + 1] entries; and every stored target ends with the
    end-of-sequence id. *)
Theorem hierarchical_loader_stores_padded_rows (EOS_ID : Z)
    (max_sent : nat) (source_content target_content : string)
    (max_size : option Z) (data : Seq3Seq.data_set) :
  Seq3Seq.read_data EOS_ID max_sent source_content target_content max_size
  = Ok data ->
  forall b stored ex,
    data !! b = Some stored -> ex ∈ stored ->
    (forall row, row ∈ ex.1 ->
                 padded_row max_sent row /\ length row = S max_sent)
    /\ last ex.2 = Some EOS_ID.
Proof.
  unfold Seq3Seq.read_data, Seq3Seq.read_data_with.
  apply hierarchical_read_loop_examples.
  - intros source target article bucket Hread.
    apply read_article_inv in Hread
      as (source_sents & target_ids & -> & _).
    unfold trimmed. simpl. split; [|apply last_snoc].
    intros row Hrow.
    apply list_elem_of_lookup in Hrow as (i & Hi).
    apply lookup_take_Some in Hi as [Hi _].
    rewrite list_lookup_fmap in Hi.
    destruct (source_sents !! i) as [sent|]; [|done].
    injection Hi as <-. apply sentence_row_padded.
  - intros b stored ex Hs Hex.
    apply lookup_replicate in Hs as [-> _]. by apply elem_of_nil in Hex.
Qed.

Lemma hierarchical_loader_stores_padded_rows_witness :
  padded_row 3 [2; 4; 5; 0] /\ length [2; 4; 5; 0] = 4%nat.
Proof.
  destruct (hierarchical_loader_stores_padded_rows 2 3 "4 5 2 6 7 8 9
" "7 8
" None _ eq_refl 0%nat [([[2; 4; 5; 0]], [7; 8; 2])]
              ([[2; 4; 5; 0]], [7; 8; 2]) eq_refl
              (list_elem_of_here _ _)) as [H _].
  apply H. apply list_elem_of_here.
Defined.

(** ** When the hierarchical loader fails *)

Lemma read_article_raises (EOS_ID : Z) (max_sent : nat)
    (source target : string) :
  (raises (Seq3Seq.read_article EOS_ID max_sent source target)
   <-> bad_article EOS_ID source target)
  /\ (forall e, Seq3Seq.read_article EOS_ID max_sent source target = Raise e ->
                e = ValueError).
Proof.
  unfold Seq3Seq.read_article, bad_article, Py.split_sep. simpl.
  set (pieces := Py.split_sep_from _ O EmptyString source).
  destruct (Py.map_result
              (fun sent => Py.map_result Py.int (Py.split sent)) pieces)
    as [source_sents|e1] eqn:Hs; simpl.
  - assert (~ exists piece tok,
               In piece pieces /\ In tok (Py.split piece)
               /\ raises (Py.int tok)) as Hgood.
    { intros (piece & tok & Hp & Ht & Hr).
      assert (raises (Py.map_result
                        (fun sent => Py.map_result Py.int (Py.split sent))
                        pieces)) as Hraises.
      { apply map_result_raises. exists piece. split; [done|].
        apply map_result_raises. eauto. }
      by rewrite Hs in Hraises. }
    destruct (Py.map_result Py.int (Py.split target)) as [ys|e2] eqn:Ht;
      simpl.
    + split; [|done]. split; [done|]. intros [Hbad|Hbad]; [done|].
      apply map_result_raises in Hbad. by rewrite Ht in Hbad.
    + split.
      * split; [|done]. intros _. right. apply map_result_raises.
        by rewrite Ht.
      * intros e [= <-]. by eapply ints_raise_value_error.
  - split.
    + split; [|done]. intros _. left.
      apply map_result_raise in Hs as (piece & Hp & Hpiece).
      assert (raises (Py.map_result Py.int (Py.split piece))) as Hr
          by (by rewrite Hpiece).
      apply map_result_raises in Hr as (tok & Ht & Hr). eauto.
    + intros e [= <-].
      apply map_result_raise in Hs as (piece & _ & Hpiece).
      by eapply ints_raise_value_error.
Qed.

(** On a data set with a list for each bucket, storing never fails. *)
Lemma store_article_total (buckets : list (nat * nat))
    (article : Seq3Seq.example) (data : Seq3Seq.data_set) :
  length data = length buckets ->
  exists data',
    Seq3Seq.store_article buckets article data = Ok data'
    /\ length data' = length data.
Proof.
  intros Hlen.
  destruct (store_article_cases article data buckets)
    as [Hsame|(b & bucket & Hb & _ & _ & Happ)]; [eauto|].
  assert (b < length data)%nat as Hlt.
  { rewrite Hlen. by eapply lookup_lt_Some. }
  destruct (lookup_lt_is_Some_2 data b Hlt) as [stored Hstored].
  rewrite Happ, (append_at_ok _ _ _ _ Hstored).
  eexists. split; [done|]. apply length_insert.
Qed.

Lemma hierarchical_read_loop_raises (EOS_ID : Z) (max_sent : nat)
    (buckets : list (nat * nat)) (max_size : option Z)
    (source_file target_file : list string) (counter : Z)
    (data : Seq3Seq.data_set) :
  length data = length buckets ->
  Forall (fun l => Py.truthy l = true) source_file ->
  Forall (fun l => Py.truthy l = true) target_file ->
  let read :=
    Seq3Seq.read_loop EOS_ID max_sent buckets max_size
      source_file target_file counter data in
  (raises read
   <-> exists lines,
        In lines (allowed max_size counter (zip source_file target_file))
        /\ raises (hierarchical_pair EOS_ID max_sent lines))
  /\ (forall e, read = Raise e -> e = ValueError).
Proof.
  revert target_file counter data.
  induction source_file as [|source source_file IH];
    intros target_file counter data Hlen Hs Ht read; subst read.
  - simpl. rewrite allowed_nil. split; [|done].
    split; [done|]. by intros (lines & [] & _).
  - destruct target_file as [|target target_file].
    { simpl. rewrite allowed_nil. split; [|done].
      split; [done|]. by intros (lines & [] & _). }
    apply Forall_cons in Hs as [Hs1 Hs]. apply Forall_cons in Ht as [Ht1 Ht].
    change (zip (source :: source_file) (target :: target_file))
      with ((source, target) :: zip source_file target_file).
    rewrite allowed_step. simpl. rewrite Hs1, Ht1. simpl.
    change (Seq3Seq.within_limit max_size counter)
      with (Seq2Seq.within_limit max_size counter).
    destruct (Seq2Seq.within_limit max_size counter).
    2:{ split; [|done]. split; [done|]. by intros (lines & [] & _). }
    destruct (Seq3Seq.read_article EOS_ID max_sent source target)
      as [article|e] eqn:Harticle; simpl.
    + destruct (store_article_total buckets article data Hlen)
        as (data1 & -> & Hlen1). simpl.
      destruct (IH target_file (counter + 1) data1
                  (eq_trans Hlen1 Hlen) Hs Ht) as [IHr IHe].
      split; [|done]. rewrite IHr. split.
      * intros (lines & Hin & Hr). exists lines. split; [by right|done].
      * intros (lines & [<-|Hin] & Hr); [|eauto].
        unfold hierarchical_pair in Hr. simpl in Hr.
        by rewrite Harticle in Hr.
    + split.
      * split; [|done]. intros _. exists (source, target).
        split; [by left|]. unfold hierarchical_pair. simpl.
        by rewrite Harticle.
      * intros e' [= <-].
        by apply (read_article_raises EOS_ID max_sent source target).
Qed.

(** X9. The hierarchical loader fails exactly when an article that it
    reads does not parse: a token of its source line or of its target line
    is not an integer. It then raises [ValueError]; storing an article in
    its bucket never fails, so no other exception is raised. *)
Theorem hierarchical_loader_fails_on_bad_article_only (EOS_ID : Z)
    (max_sent : nat) (source_content target_content : string)
    (max_size : option Z) :
  let read :=
    Seq3Seq.read_data EOS_ID max_sent source_content target_content
      max_size in
  (raises read
   <-> exists source target,
        In (source, target)
           (allowed max_size 0
              (zip (Py.lines source_content) (Py.lines target_content)))
        /\ bad_article EOS_ID source target)
  /\ (forall e, read = Raise e -> e = ValueError).
Proof.
  intros read. subst read.
  unfold Seq3Seq.read_data, Seq3Seq.read_data_with.
  destruct (hierarchical_read_loop_raises EOS_ID max_sent Seq3Seq._buckets
              max_size (Py.lines source_content) (Py.lines target_content)
              0 (replicate (length Seq3Seq._buckets) []))
    as [Hiff Honly]; [done|apply lines_from_truthy..|].
  split; [|done]. rewrite Hiff. split.
  - intros ([source target] & Hin & Hr). exists source, target.
    split; [done|].
    by apply (read_article_raises EOS_ID max_sent source target).
  - intros (source & target & Hin & Hbad). exists (source, target).
    split; [done|].
    by apply (read_article_raises EOS_ID max_sent source target).
Qed.

(** ** A training set without examples *)

Lemma one_sentence_is_dropped (article : Seq3Seq.example)
    (data : Seq3Seq.data_set) :
  length article.1 = 1%nat ->
  Seq3Seq.store_article Seq3Seq._buckets article data = Ok data.
Proof.
  intros Hone. apply store_article_none. intros b bucket Hb.
  unfold overflows. rewrite Hone.
  do 6 (destruct b as [|b]; [by injection Hb as <-|]). done.
Qed.

Lemma one_sentence_read_loop (EOS_ID : Z) (max_sent : nat)
    (max_size : option Z) (source_file target_file : list string)
    (counter : Z) (data data' : Seq3Seq.data_set) :
  Forall (fun line =>
            occurs (String " " (Py.str EOS_ID ++ " ")) line = false)
    source_file ->
  Seq3Seq.read_loop EOS_ID max_sent Seq3Seq._buckets max_size
    source_file target_file counter data = Ok data' ->
  data' = data.
Proof.
  intros Hall. revert target_file counter.
  induction Hall as [|source source_file Hno _ IH];
    intros target_file counter Hread.
  - simpl in Hread. by injection Hread as <-.
  - destruct target_file as [|target target_file].
    { simpl in Hread. by injection Hread as <-. }
    simpl in Hread.
    destruct (Py.truthy source && Py.truthy target
              && Seq3Seq.within_limit max_size counter);
      [|by injection Hread as <-].
    destruct (Seq3Seq.read_article EOS_ID max_sent source target)
      as [article|e] eqn:Harticle; simpl in Hread; [|done].
    rewrite one_sentence_is_dropped in Hread
      by (by eapply read_article_one_sentence).
    simpl in Hread. by eapply IH.
Qed.

(** X3. A training set without examples stops [train] before its loop:
    with at least one bucket and every bucket empty, computing the bucket
    scale divides by zero. This is what happens to the hierarchical model
    on a corpus whose articles have one sentence each: every article is
    dropped, and the preparation ends in [ZeroDivisionError], or in
    [ValueError] when a line does not parse. *)
Theorem empty_training_set_divides_by_zero :
  (forall (buckets : list (nat * nat))
          (train_set : list (list Seq3Seq.example)),
      buckets <> [] ->
      length train_set = length buckets ->
      Forall (fun examples => examples = []) train_set ->
      Loop.scale_of buckets train_set = Raise ZeroDivisionError)
  /\ (forall EOS_ID max_sent source_content target_content max_size,
        Forall (fun line =>
                  occurs (String " " (Py.str EOS_ID ++ " ")) line = false)
          (Py.lines source_content) ->
        (forall data,
            Seq3Seq.read_data EOS_ID max_sent source_content
              target_content max_size = Ok data ->
            data = replicate 6 [])
        /\ (Loop.seq3seq_prepare EOS_ID max_sent source_content
              target_content max_size = Raise ZeroDivisionError
            \/ Loop.seq3seq_prepare EOS_ID max_sent source_content
                 target_content max_size = Raise ValueError)).
Proof.
  split; [apply @scale_of_empty_sets|].
  intros EOS_ID max_sent source_content target_content max_size Hone.
  assert (forall data,
             Seq3Seq.read_data EOS_ID max_sent source_content
               target_content max_size = Ok data ->
             data = replicate 6 []) as Hdropped.
  { intros data Hread.
    unfold Seq3Seq.read_data, Seq3Seq.read_data_with in Hread.
    by apply one_sentence_read_loop in Hread. }
  split; [done|]. unfold Loop.seq3seq_prepare.
  destruct (Seq3Seq.read_data EOS_ID max_sent source_content
              target_content max_size) as [data|e] eqn:Hread; simpl.
  - left. rewrite (Hdropped data eq_refl).
    rewrite (scale_of_empty_sets Seq3Seq._buckets); try done.
    by apply Forall_replicate.
  - right.
    unfold Seq3Seq.read_data, Seq3Seq.read_data_with in Hread.
    apply (hierarchical_read_loop_raises EOS_ID max_sent Seq3Seq._buckets
             max_size (Py.lines source_content) (Py.lines target_content)
             0 (replicate (length Seq3Seq._buckets) []))
      in Hread as ->; [done|done|apply lines_from_truthy..].
Qed.

Lemma empty_training_set_divides_by_zero_witness :
  Loop.seq3seq_prepare 2 250 "4 5 6
7 8
" "9
10
" None = Raise ZeroDivisionError
  \/ Loop.seq3seq_prepare 2 250 "4 5 6
7 8
" "9
10
" None = Raise ValueError.
Proof.
  apply (proj2 empty_training_set_divides_by_zero 2 250%nat "4 5 6
7 8
"%string "9
10
"%string None).
  repeat constructor.
Defined.

(** ** Checkpoints along the flat model's loop *)

Lemma checkpoint_effect (learning_rate_decay_factor : float)
    (libm_exp : float -> float) (st st' : Train.loop_state) :
  Train.checkpoint learning_rate_decay_factor libm_exp st = Ok st' ->
  Train.current_step st' = Train.current_step st
  /\ Train.global_step (Train.model st') = Train.global_step (Train.model st)
  /\ Train.loss st' = 0%float
  /\ Train.previous_losses st' = Train.previous_losses st ++ [Train.loss st]
  /\ Train.saved_at (Train.model st')
     = Train.saved_at (Train.model st)
       ++ [Train.global_step (Train.model st)]
  /\ length (Train.reported st') = S (length (Train.reported st)).
Proof.
  unfold Train.checkpoint.
  destruct (Train.perplexity_of libm_exp (Train.loss st)) as [p|e];
    simpl; [|done].
  unfold Train.adjust_learning_rate. simpl.
  destruct (Train.no_improvement (Train.previous_losses st) (Train.loss st))
    as [decay|e]; simpl; [|done].
  intros [= <-]. simpl. rewrite length_app. simpl.
  destruct decay; simpl; repeat split; lia.
Qed.

Lemma iteration_effect (learning_rate_decay_factor : float)
    (libm_exp : float -> float) (steps_per_checkpoint : Z)
    (scale : list float) (random_number_01 loss_share : float)
    (st st' : Train.loop_state) :
  Train.seq2seq_iteration learning_rate_decay_factor libm_exp
    steps_per_checkpoint scale random_number_01 loss_share st = Ok st' ->
  let due :=
    if (Train.current_step st + 1) mod steps_per_checkpoint =? 0
    then 1%nat else 0%nat in
  Train.current_step st' = Train.current_step st + 1
  /\ Train.global_step (Train.model st')
     = Train.global_step (Train.model st) + 1
  /\ length (Train.previous_losses st')
     = (length (Train.previous_losses st) + due)%nat
  /\ length (Train.saved_at (Train.model st'))
     = (length (Train.saved_at (Train.model st)) + due)%nat
  /\ length (Train.reported st')
     = (length (Train.reported st) + due)%nat
  /\ (due = 1%nat -> Train.loss st' = 0%float).
Proof.
  unfold Train.seq2seq_iteration.
  destruct (Train.choose_bucket scale random_number_01) as [bucket_id|e];
    simpl; [|done].
  unfold Train.py_mod.
  destruct (steps_per_checkpoint =? 0); simpl; [done|].
  destruct ((Train.current_step st + 1) mod steps_per_checkpoint =? 0).
  - intros Hcp. apply checkpoint_effect in Hcp
      as (Hc & Hg & Hl & Hp & Hs & Hr).
    simpl in *. rewrite Hc, Hg, Hl, Hp, Hs, Hr, !length_app. simpl.
    repeat split; lia.
  - intros [= <-]. simpl. repeat split; lia.
Qed.

Lemma boundary_count (c n : Z) :
  0 < n ->
  (c + 1) / n - c / n = if (c + 1) mod n =? 0 then 1 else 0.
Proof.
  intros Hn. destruct (Z.eqb_spec ((c + 1) mod n) 0) as [H0|H0];
    Z.div_mod_to_equations; nia.
Qed.

(** X10. Along the flat model's loop a checkpoint is taken exactly at the
    steps that are multiples of [steps_per_checkpoint]: after any number of
    turns that went through, the step count and the global step have grown
    by the number of turns, and the loss history, the saved checkpoints and
    the reported perplexities by the number of multiples passed. *)
Theorem checkpoints_at_multiples_of_interval
    (learning_rate_decay_factor : float) (libm_exp : float -> float)
    (steps_per_checkpoint : Z) (scale : list float)
    (turns : list (float * float)) (st st' : Train.loop_state) :
  0 < steps_per_checkpoint ->
  Loop.seq2seq_turns learning_rate_decay_factor libm_exp
    steps_per_checkpoint scale turns st = Ok st' ->
  let first := Train.current_step st in
  let last := first + Z.of_nat (length turns) in
  let passed := last / steps_per_checkpoint - first / steps_per_checkpoint in
  Train.current_step st' = last
  /\ Train.global_step (Train.model st')
     = Train.global_step (Train.model st) + Z.of_nat (length turns)
  /\ Z.of_nat (length (Train.previous_losses st'))
     = Z.of_nat (length (Train.previous_losses st)) + passed
  /\ Z.of_nat (length (Train.saved_at (Train.model st')))
     = Z.of_nat (length (Train.saved_at (Train.model st))) + passed
  /\ Z.of_nat (length (Train.reported st'))
     = Z.of_nat (length (Train.reported st)) + passed.
Proof.
  intros Hn. revert st.
  induction turns as [|[random_number_01 loss_share] turns IH];
    intros st Hrun; simpl in Hrun.
  - injection Hrun as <-. simpl. rewrite Z.add_0_r. repeat split; lia.
  - destruct (Train.seq2seq_iteration _ _ _ _ _ _ st) as [st1|e] eqn:Hturn;
      simpl in Hrun; [|done].
    apply iteration_effect in Hturn as (Hc & Hg & Hp & Hs & Hr & _).
    destruct (IH st1 Hrun) as (Hc' & Hg' & Hp' & Hs' & Hr').
    pose proof (boundary_count (Train.current_step st) _ Hn) as Hb.
    cbv zeta in *. simpl length. rewrite Nat2Z.inj_succ.
    replace (Train.current_step st + Z.succ (Z.of_nat (length turns)))
      with (Train.current_step st + 1 + Z.of_nat (length turns)) by lia.
    rewrite Hc in Hc', Hp', Hs', Hr'.
    destruct ((Train.current_step st + 1) mod steps_per_checkpoint =? 0);
      repeat split; lia.
Qed.

Lemma checkpoints_at_multiples_of_interval_witness :
  exists st',
    Loop.seq2seq_turns 0.99 capped_exp 2 [1]%float
      [(0.5, 1); (0.25, 1); (0.75, 1)]%float (loop_start 0.5 0) = Ok st'
    /\ Train.current_step st' = 3
    /\ length (Train.previous_losses st') = 1%nat.
Proof.
  eexists. split; [vm_compute; reflexivity|].
  destruct (checkpoints_at_multiples_of_interval 0.99 capped_exp 2
              [1]%float [(0.5, 1); (0.25, 1); (0.75, 1)]%float
              (loop_start 0.5 0) _ eq_refl eq_refl) as (Hc & _ & Hp & _).
  split; [exact Hc|]. apply Nat2Z.inj. exact Hp.
Defined.

(** ** The epochs of the language model *)

Section LanguageModel.

Variable learning_rate : float.
Variable learning_decay : float.
Variable decay_start : Z.
Variable py_pow : float -> Z -> float.
Variable num : Type.
Variable zero : num.
Variable add : num -> num -> num.
Variable div_int : num -> Z -> num.

Lemma tenth_steps_succ (c : Z) (n : nat) :
  tenth_steps c (S n)
  = (if (c + 1) mod 10 =? 0 then [c + 1] else []) ++ tenth_steps (c + 1) n.
Proof.
  unfold tenth_steps. simpl seq. rewrite <- seq_shift.
  cbn [map List.filter]. rewrite map_map.
  replace (c + Z.of_nat 0 + 1) with (c + 1) by lia.
  assert (map (fun x : nat => c + Z.of_nat (S x) + 1) (seq 0 n)
          = map (fun j : nat => c + 1 + Z.of_nat j + 1) (seq 0 n)) as ->.
  { apply map_ext. intros j. lia. }
  by destruct ((c + 1) mod 10 =? 0).
Qed.

Lemma tenth_steps_add (c : Z) (n m : nat) :
  tenth_steps c (n + m)
  = tenth_steps c n ++ tenth_steps (c + Z.of_nat n) m.
Proof.
  revert c. induction n as [|n IH]; intros c.
  - simpl. by rewrite Z.add_0_r.
  - change (S n + m)%nat with (S (n + m)).
    rewrite !tenth_steps_succ, IH, <- app_assoc.
    do 3 f_equal. lia.
Qed.

Lemma batch_loop_spec (costs : list num) (k i : Z) (total_cost : num)
    (tb : LSTM.board) :
  LSTM.batch_loop num add costs k i total_cost tb
  = (match costs with
     | [] => i
     | _ :: _ => k + Z.of_nat (length costs) - 1
     end,
     fold_left add costs total_cost,
     {| LSTM.batch_counter :=
          LSTM.batch_counter tb + Z.of_nat (length costs);
        LSTM.summaries :=
          LSTM.summaries tb
          ++ tenth_steps (LSTM.batch_counter tb) (length costs) |}).
Proof.
  revert k i total_cost tb.
  induction costs as [|cost costs IH]; intros k i total_cost tb.
  - simpl. rewrite Z.add_0_r, app_nil_r. by destruct tb.
  - cbn [LSTM.batch_loop]. rewrite IH. cbn [LSTM.batch_counter
      LSTM.summaries length fold_left].
    rewrite tenth_steps_succ. f_equal; [f_equal|].
    + destruct costs; simpl length; lia.
    + f_equal; [lia|].
      destruct ((LSTM.batch_counter tb + 1) mod 10 =? 0);
        by rewrite <- ?app_assoc.
Qed.

Lemma run_epoch_spec (costs : list num) (tb : LSTM.board) :
  LSTM.run_epoch num zero add div_int costs tb
  = (div_int (fold_left add costs zero)
       (Z.max 1 (Z.of_nat (length costs))),
     {| LSTM.batch_counter :=
          LSTM.batch_counter tb + Z.of_nat (length costs);
        LSTM.summaries :=
          LSTM.summaries tb
          ++ tenth_steps (LSTM.batch_counter tb) (length costs) |}).
Proof.
  unfold LSTM.run_epoch. rewrite batch_loop_spec. f_equal. f_equal.
  destruct costs; simpl length; lia.
Qed.

Lemma epochs_spec (costs_of_epochs : list (list num)) (i : Z)
    (rate : float) (tb : LSTM.board) (cost : option num) :
  let batches := length (concat costs_of_epochs) in
  let final := i + Z.of_nat (length costs_of_epochs) - 1 in
  LSTM.epochs learning_rate learning_decay decay_start py_pow
    num zero add div_int costs_of_epochs i rate tb cost
  = (match costs_of_epochs with
     | [] => rate
     | _ :: _ =>
         if decay_start <? final
         then scheduled_rate learning_rate learning_decay decay_start
                py_pow final
         else rate
     end,
     {| LSTM.batch_counter := LSTM.batch_counter tb + Z.of_nat batches;
        LSTM.summaries :=
          LSTM.summaries tb ++ tenth_steps (LSTM.batch_counter tb) batches |},
     match last costs_of_epochs with
     | Some costs =>
         Some (div_int (fold_left add costs zero)
                 (Z.max 1 (Z.of_nat (length costs))))
     | None => cost
     end).
Proof.
  revert i rate tb cost.
  induction costs_of_epochs as [|costs rest IH]; intros i rate tb cost.
  - simpl. rewrite Z.add_0_r, app_nil_r. by destruct tb.
  - cbn [LSTM.epochs]. rewrite run_epoch_spec, IH.
    cbn [LSTM.batch_counter LSTM.summaries].
    change (concat (costs :: rest)) with (costs ++ concat rest).
    rewrite length_app, tenth_steps_add, Nat2Z.inj_add, <- !app_assoc,
      Z.add_assoc.
    f_equal; [f_equal|].
    + unfold LSTM.lr_decay_and_set, scheduled_rate.
      destruct rest as [|costs' rest].
      * simpl length. replace (i + Z.of_nat 1 - 1) with i by lia. done.
      * replace (i + 1 + Z.of_nat (length (costs' :: rest)) - 1)
          with (i + Z.of_nat (length (costs :: costs' :: rest)) - 1)
          by (simpl length; lia).
        destruct (Z.ltb_spec decay_start
                    (i + Z.of_nat (length (costs :: costs' :: rest)) - 1));
          [done|].
        destruct (Z.ltb_spec decay_start i); [|done].
        simpl length in *. lia.
    + destruct rest as [|costs' rest]; [reflexivity|].
      change (last (costs :: costs' :: rest)) with (last (costs' :: rest)).
      destruct (last (costs' :: rest)) eqn:Hlast; [done|].
      by apply last_None in Hlast.
Qed.

End LanguageModel.

(** X11. The learning rate of the language model depends on the epoch
    alone: once [main] has run its epochs, the float32 variable holds the
    rate of [hyperParams] if the last epoch [e] is not past [decay_start],
    and [learning_rate * learning_decay ** (e - decay_start)] if it is,
    each as the nearest float32. The decays do not compound from epoch to
    epoch. *)
Theorem learning_rate_follows_epoch_schedule
    (learning_rate learning_decay : float) (decay_start : Z)
    (py_pow : float -> Z -> float) (num : Type) (zero : num)
    (add : num -> num -> num) (div_int : num -> Z -> num)
    (costs_of_epochs : list (list num)) (tb : LSTM.board) :
  costs_of_epochs <> [] ->
  let final := Z.of_nat (length costs_of_epochs) - 1 in
  (LSTM.main learning_rate learning_decay decay_start py_pow
     num zero add div_int costs_of_epochs tb).1.1
  = if decay_start <? final
    then LSTM.float32
           (PrimFloat.mul learning_rate
              (py_pow learning_decay (final - decay_start)))
    else LSTM.float32 learning_rate.
Proof.
  intros Hne final. unfold LSTM.main. rewrite epochs_spec. simpl.
  destruct costs_of_epochs as [|costs rest]; [done|].
  rewrite Z.add_0_l. done.
Qed.

Lemma learning_rate_follows_epoch_schedule_witness :
  (LSTM.main 0.1 0.9 1 (fun x n => Z.iter n (PrimFloat.mul x) 1%float)
     Z 0 Z.add Z.div [[3; 5]; []; [4]; [6]]
     {| LSTM.batch_counter := 0; LSTM.summaries := [] |}).1.1
  = 0.081000000238418579%float
  /\ (LSTM.main 0.1 0.9 1 (fun x n => Z.iter n (PrimFloat.mul x) 1%float)
        Z 0 Z.add Z.div [[3; 5]]
        {| LSTM.batch_counter := 0; LSTM.summaries := [] |}).1.1
     = 0.10000000149011612%float.
Proof.
  split.
  - rewrite (learning_rate_follows_epoch_schedule 0.1 0.9 1
               (fun x n => Z.iter n (PrimFloat.mul x) 1%float)
               Z 0 Z.add Z.div [[3; 5]; []; [4]; [6]]);
      [vm_compute; reflexivity|done].
  - rewrite (learning_rate_follows_epoch_schedule 0.1 0.9 1
               (fun x n => Z.iter n (PrimFloat.mul x) 1%float)
               Z 0 Z.add Z.div [[3; 5]]);
      [vm_compute; reflexivity|done].
Defined.

Lemma tenth_steps_spec (c : Z) (n : nat) (x : Z) :
  In x (tenth_steps c n)
  <-> x mod 10 = 0 /\ c < x <= c + Z.of_nat n.
Proof.
  unfold tenth_steps. rewrite filter_In, in_map_iff, Z.eqb_eq. split.
  - intros [(j & <- & Hj) Hmod]. apply in_seq in Hj. lia.
  - intros [Hmod Hrange]. split; [|done].
    exists (Z.to_nat (x - c - 1)). split; [lia|]. apply in_seq. lia.
Qed.

(** X12. The batch counter of the language model runs over the whole
    training: an epoch adds its number of batches to it, and a summary is
    written at exactly the counts that are multiples of ten, whatever the
    epoch they fall in. The cost that [run_epoch] returns is the sum of the
    costs over the number of batches, and over one for an epoch without
    batches, which therefore divides nothing by zero. *)
Theorem summaries_every_tenth_batch_across_epochs
    (learning_rate learning_decay : float) (decay_start : Z)
    (py_pow : float -> Z -> float) (num : Type) (zero : num)
    (add : num -> num -> num) (div_int : num -> Z -> num)
    (tb : LSTM.board) :
  (forall costs,
      LSTM.run_epoch num zero add div_int costs tb
      = (div_int (fold_left add costs zero)
           (Z.max 1 (Z.of_nat (length costs))),
         {| LSTM.batch_counter :=
              LSTM.batch_counter tb + Z.of_nat (length costs);
            LSTM.summaries :=
              LSTM.summaries tb
              ++ tenth_steps (LSTM.batch_counter tb) (length costs) |}))
  /\ (forall costs_of_epochs,
        let batches := length (concat costs_of_epochs) in
        (LSTM.main learning_rate learning_decay decay_start py_pow
           num zero add div_int costs_of_epochs tb).1.2
        = {| LSTM.batch_counter := LSTM.batch_counter tb + Z.of_nat batches;
             LSTM.summaries :=
               LSTM.summaries tb
               ++ tenth_steps (LSTM.batch_counter tb) batches |})
  /\ (forall n x,
        In x (tenth_steps (LSTM.batch_counter tb) n)
        <-> x mod 10 = 0
            /\ LSTM.batch_counter tb < x
               <= LSTM.batch_counter tb + Z.of_nat n).
Proof.
  split; [|split].
  - intros costs. apply run_epoch_spec.
  - intros costs_of_epochs batches. unfold LSTM.main.
    by rewrite epochs_spec.
  - intros n x. apply tenth_steps_spec.
Qed.

(** ** A loss that is not a number *)

Lemma nan_spec (x : float) :
  PrimFloat.is_nan x = true -> Prim2SF x = S754_nan.
Proof.
  unfold PrimFloat.is_nan. rewrite FloatAxioms.eqb_spec.
  destruct (Prim2SF x) as [s|s| |s m e]; simpl; try done.
  - unfold SFeqb. simpl. by destruct s.
  - unfold SFeqb. simpl.
    rewrite Z.compare_refl, Pos.compare_cont_refl. by destruct s.
Qed.

Lemma nan_compares_false (x y : float) :
  PrimFloat.is_nan y = true ->
  PrimFloat.ltb x y = false /\ PrimFloat.ltb y x = false.
Proof.
  intros H. rewrite !FloatAxioms.ltb_spec, (nan_spec _ H).
  split; [by destruct (Prim2SF x)|done].
Qed.

(** X13. A loss that is not a number never lowers the learning rate: at
    such a checkpoint the perplexity is reported as infinite, the model is
    saved with its learning rate as it was, and the loss enters the
    history. While it is the oldest of the three losses recorded last, it
    is their maximum as [max] takes it, and no loss, however large, lowers
    the learning rate. *)
Theorem nan_loss_never_decays (learning_rate_decay_factor : float)
    (libm_exp : float -> float) (st : Train.loop_state) :
  (PrimFloat.is_nan (Train.loss st) = true ->
   exists st',
     Train.checkpoint learning_rate_decay_factor libm_exp st = Ok st'
     /\ Train.learning_rate (Train.model st')
        = Train.learning_rate (Train.model st)
     /\ Train.decay_runs (Train.model st')
        = Train.decay_runs (Train.model st)
     /\ Train.reported st' = Train.reported st ++ [PrimFloat.infinity]
     /\ Train.previous_losses st'
        = Train.previous_losses st ++ [Train.loss st])
  /\ (forall earlier a b c,
        Train.previous_losses st = earlier ++ [a; b; c] ->
        PrimFloat.is_nan a = true ->
        exists st',
          Train.adjust_learning_rate learning_rate_decay_factor st = Ok st'
          /\ Train.model st' = Train.model st).
Proof.
  split.
  - intros Hnan. unfold Train.checkpoint, Train.perplexity_of.
    rewrite (proj2 (nan_compares_false 300 _ Hnan)). simpl.
    unfold Train.adjust_learning_rate. simpl.
    destruct (no_improvement_spec (Train.previous_losses st) (Train.loss st))
      as (decay & -> & Hdecay).
    simpl. destruct decay.
    + exfalso.
      destruct (proj1 Hdecay eq_refl) as (earlier & a & b & c & _ & Hlt).
      by rewrite (proj1 (nan_compares_false _ _ Hnan)) in Hlt.
    + eexists. split; [done|]. done.
  - intros earlier a b c Hprev Hnan. unfold Train.adjust_learning_rate.
    destruct (no_improvement_spec (Train.previous_losses st) (Train.loss st))
      as (decay & -> & Hdecay).
    simpl. eexists. split; [done|]. simpl.
    destruct decay; [exfalso|done].
    destruct (proj1 Hdecay eq_refl)
      as (earlier' & a' & b' & c' & Hprev' & Hlt).
    rewrite Hprev in Hprev'.
    change [a; b; c] with ([a] ++ [b] ++ [c]) in Hprev'.
    change [a'; b'; c'] with ([a'] ++ [b'] ++ [c']) in Hprev'.
    rewrite !app_assoc in Hprev'.
    apply app_inj_tail in Hprev' as [Hprev' <-].
    apply app_inj_tail in Hprev' as [Hprev' <-].
    apply app_inj_tail in Hprev' as [_ <-].
    cbv zeta in Hlt.
    rewrite (proj2 (nan_compares_false b a Hnan)) in Hlt.
    cbv iota in Hlt.
    rewrite (proj2 (nan_compares_false c a Hnan)) in Hlt.
    cbv iota in Hlt.
    by rewrite (proj2 (nan_compares_false (Train.loss st) a Hnan)) in Hlt.
Qed.

Lemma nan_loss_never_decays_witness :
  let st :=
    {| Train.model := {| Train.learning_rate := 0.5%float;
                         Train.global_step := 800;
                         Train.decay_runs := 0;
                         Train.saved_at := [200; 400; 600] |};
       Train.loss := 9%float;
       Train.current_step := 800;
       Train.previous_losses := [PrimFloat.nan; 2; 1]%float;
       Train.reported := [] |} in
  exists st',
    Train.adjust_learning_rate 0.99 st = Ok st'
    /\ Train.model st' = Train.model st.
Proof.
  intros st.
  apply (proj2 (nan_loss_never_decays 0.99 capped_exp st)
           [] PrimFloat.nan 2%float 1%float); reflexivity.
Defined.

(** ** How many examples the hierarchical loader stores *)

Lemma examples_in_insert {A : Type} (data : list (list A)) (b : nat)
    (stored : list A) (x : A) :
  data !! b = Some stored ->
  examples_in (<[b := stored ++ [x]]> data) = S (examples_in data).
Proof.
  unfold examples_in. revert b.
  induction data as [|l data IH]; intros b Hb; [done|].
  destruct b as [|b]; simpl in *.
  - injection Hb as ->. rewrite length_app. simpl. lia.
  - rewrite (IH b Hb). lia.
Qed.

Lemma hierarchical_read_loop_count (EOS_ID : Z) (max_sent : nat)
    (buckets : list (nat * nat)) (max_size : option Z)
    (source_file target_file : list string) (counter : Z)
    (data data' : Seq3Seq.data_set) :
  Seq3Seq.read_loop EOS_ID max_sent buckets max_size
    source_file target_file counter data = Ok data' ->
  (examples_in data <= examples_in data'
   <= examples_in data
      + length (allowed max_size counter (zip source_file target_file)))%nat.
Proof.
  revert target_file counter data.
  induction source_file as [|source source_file IH];
    intros target_file counter data Hread.
  - simpl in Hread. injection Hread as <-. lia.
  - destruct target_file as [|target target_file].
    { simpl in Hread. injection Hread as <-. lia. }
    change (zip (source :: source_file) (target :: target_file))
      with ((source, target) :: zip source_file target_file).
    rewrite allowed_step. simpl in Hread.
    change (Seq3Seq.within_limit max_size counter)
      with (Seq2Seq.within_limit max_size counter) in Hread.
    destruct (Seq2Seq.within_limit max_size counter).
    2:{ rewrite andb_false_r in Hread. injection Hread as <-. simpl. lia. }
    destruct (Py.truthy source && Py.truthy target); simpl in Hread.
    2:{ injection Hread as <-. simpl. lia. }
    destruct (Seq3Seq.read_article EOS_ID max_sent source target)
      as [article|e]; simpl in Hread; [|done].
    destruct (Seq3Seq.store_article buckets article data)
      as [data1|e] eqn:Hstore; simpl in Hread; [|done].
    apply IH in Hread. simpl length.
    apply store_article_inv in Hstore
      as [->|(b & bucket & stored & _ & _ & Hs & ->)]; [lia|].
    rewrite (examples_in_insert _ _ _ _ Hs) in Hread. lia.
Qed.

(** X14. The hierarchical loader stores at most one example for each
    article that it reads, and may store none: the number of examples in
    its buckets is at most the number of line pairs of the shorter file,
    and at most a positive [max_size]. *)
Theorem hierarchical_loader_stores_at_most_one_per_article (EOS_ID : Z)
    (max_sent : nat) (source_content target_content : string)
    (max_size : option Z) (data : Seq3Seq.data_set) :
  Seq3Seq.read_data EOS_ID max_sent source_content target_content max_size
  = Ok data ->
  (examples_in data
   <= read_count max_size
        (Nat.min (length (Py.lines source_content))
                 (length (Py.lines target_content))))%nat
  /\ (forall m, max_size = Some m -> 0 < m ->
                (examples_in data <= Z.to_nat m)%nat).
Proof.
  unfold Seq3Seq.read_data, Seq3Seq.read_data_with. intros Hread.
  apply hierarchical_read_loop_count in Hread.
  assert (examples_in (replicate (length Seq3Seq._buckets)
                         ([] : list Seq3Seq.example)) = O) as Hzero by done.
  rewrite Hzero, allowed_length, length_zip in Hread.
  split; [lia|]. intros m -> Hm. unfold read_count in Hread.
  destruct (Z.eqb_spec m 0); lia.
Qed.

Lemma hierarchical_loader_stores_at_most_one_per_article_witness :
  (examples_in [[([[2; 4; 5; 0]], [7; 8; 2])]; []; []; []; []; []]
   <= read_count None
        (Nat.min (length (Py.lines "4 5 2 6 7 8 9
3
")) (length (Py.lines "7 8
9
"))))%nat.
Proof.
  apply (hierarchical_loader_stores_at_most_one_per_article 2 3 "4 5 2 6 7 8 9
3
" "7 8
9
" None
           [[([[2; 4; 5; 0]], [7; 8; 2])]; []; []; []; []; []] eq_refl).
Defined.

(** ** Decoding an article, whatever the model answers *)

(** X15. Whatever outputs the model gives, decoding an input of fewer than
    20 tokens returns a sequence without the end-of-sequence id, which is
    the outputs of the input's bucket up to their first such id; decoding
    an input of 20 tokens or more raises [ValueError] before the model is
    asked. *)
Theorem decode_article_total_below_largest_bucket (EOS_ID : Z)
    (greedy : nat -> list Z -> list Z) (token_ids : list Z) :
  ((length token_ids < 20)%nat ->
   exists bucket_id kept,
     Decode.bucket_of Seq3Seq._buckets token_ids = Ok bucket_id
     /\ (bucket_id < length Seq3Seq._buckets)%nat
     /\ Decode.decode_article EOS_ID greedy token_ids = Ok kept
     /\ ~ In EOS_ID kept
     /\ (kept = greedy bucket_id token_ids
         \/ exists rest,
             greedy bucket_id token_ids = kept ++ EOS_ID :: rest))
  /\ ((20 <= length token_ids)%nat ->
      Decode.decode_article EOS_ID greedy token_ids = Raise ValueError).
Proof.
  split.
  - intros Hlt.
    destruct (min_filter_some
                (fun b => match Seq3Seq._buckets !! b with
                          | Some bucket => (length token_ids <? bucket.1)%nat
                          | None => false
                          end) (length Seq3Seq._buckets) 5)
      as (bucket_id & Hmin & Hb & _); [simpl; lia| |].
    { simpl. by apply Nat.ltb_lt. }
    destruct (cut_at_eos_cases EOS_ID (greedy bucket_id token_ids))
      as (kept & Hcut & Hnot & Hprefix).
    exists bucket_id, kept. split; [done|]. split; [done|].
    unfold Decode.decode_article, Decode.bucket_of, Decode.roomy.
    rewrite Hmin. simpl. rewrite Hcut. split; [done|]. split; [done|].
    destruct Hprefix as [[_ ->]|Hrest]; [by left|by right].
  - intros Hge. unfold Decode.decode_article, Decode.bucket_of, Decode.roomy.
    rewrite min_filter_none; [done|].
    intros j Hj. simpl in Hj.
    do 6 (destruct j as [|j]; [simpl; apply Nat.ltb_ge; lia|]). lia.
Qed.

(** ** When the learning rate can decay *)

Lemma checkpoint_short_history (learning_rate_decay_factor : float)
    (libm_exp : float -> float) (st st' : Train.loop_state) :
  (length (Train.previous_losses st) < 3)%nat ->
  Train.checkpoint learning_rate_decay_factor libm_exp st = Ok st' ->
  Train.learning_rate (Train.model st')
  = Train.learning_rate (Train.model st)
  /\ Train.decay_runs (Train.model st') = Train.decay_runs (Train.model st).
Proof.
  intros Hshort. unfold Train.checkpoint.
  destruct (Train.perplexity_of libm_exp (Train.loss st)) as [p|e];
    simpl; [|done].
  unfold Train.adjust_learning_rate, Train.no_improvement. simpl.
  destruct (Nat.ltb_spec 2 (length (Train.previous_losses st))); [lia|].
  simpl. by intros [= <-].
Qed.

Lemma flat_turns_keep_rate (learning_rate_decay_factor : float)
    (libm_exp : float -> float) (steps_per_checkpoint : Z)
    (scale : list float) (turns : list (float * float))
    (st st' : Train.loop_state) :
  0 < steps_per_checkpoint ->
  Z.of_nat (length (Train.previous_losses st))
  + ((Train.current_step st + Z.of_nat (length turns))
       / steps_per_checkpoint
     - Train.current_step st / steps_per_checkpoint) <= 3 ->
  Loop.seq2seq_turns learning_rate_decay_factor libm_exp
    steps_per_checkpoint scale turns st = Ok st' ->
  Train.learning_rate (Train.model st')
  = Train.learning_rate (Train.model st)
  /\ Train.decay_runs (Train.model st') = Train.decay_runs (Train.model st).
Proof.
  intros Hn. revert st.
  induction turns as [|[random_number_01 loss_share] turns IH];
    intros st Hfew Hrun; simpl in Hrun.
  - by injection Hrun as <-.
  - destruct (Train.seq2seq_iteration _ _ _ _ _ _ st) as [st1|e] eqn:Hturn;
      simpl in Hrun; [|done].
    pose proof (iteration_effect _ _ _ _ _ _ _ _ Hturn)
      as (Hc & _ & Hp & _).
    pose proof (boundary_count (Train.current_step st) _ Hn) as Hb.
    simpl length in Hfew. rewrite Nat2Z.inj_succ in Hfew.
    replace (Train.current_step st + Z.succ (Z.of_nat (length turns)))
      with (Train.current_step st + 1 + Z.of_nat (length turns)) in Hfew
      by lia.
    assert (0 <= (Train.current_step st + 1 + Z.of_nat (length turns))
                 / steps_per_checkpoint
                 - (Train.current_step st + 1) / steps_per_checkpoint)
      as Hmono.
    { apply Zle_minus_le_0, Z.div_le_mono; lia. }
    destruct (IH st1) as [Hr Hd]; [|done|].
    { rewrite Hc, Hp.
      destruct ((Train.current_step st + 1) mod steps_per_checkpoint =? 0);
        lia. }
    rewrite Hr, Hd. clear IH Hrun Hr Hd.
    unfold Train.seq2seq_iteration in Hturn.
    destruct (Train.choose_bucket scale random_number_01); simpl in Hturn;
      [|done].
    unfold Train.py_mod in Hturn.
    destruct (steps_per_checkpoint =? 0); simpl in Hturn; [done|].
    destruct ((Train.current_step st + 1) mod steps_per_checkpoint =? 0).
    + apply checkpoint_short_history in Hturn; [done|]. simpl. lia.
    + by injection Hturn as <-.
Qed.

(** X16. The learning rate cannot decay before the fourth checkpoint of a
    run, since [train] starts with an empty loss history. In the flat model
    this covers the first [4 * steps_per_checkpoint - 1] turns. In the
    hierarchical model, whose loop ends with its first checkpoint, the
    decay operation is never run: the run saves one checkpoint at most and
    leaves the learning rate as it found it. *)
Theorem no_decay_before_fourth_checkpoint
    (learning_rate_decay_factor : float) (libm_exp : float -> float)
    (scale : list float) (learning_rate : float) (global_step : Z) :
  (forall steps_per_checkpoint turns st',
      0 < steps_per_checkpoint ->
      Z.of_nat (length turns) < 4 * steps_per_checkpoint ->
      Loop.seq2seq_turns learning_rate_decay_factor libm_exp
        steps_per_checkpoint scale turns
        (loop_start learning_rate global_step) = Ok st' ->
      Train.learning_rate (Train.model st') = learning_rate
      /\ Train.decay_runs (Train.model st') = O)
  /\ (forall turns st',
        Loop.seq3seq_turns learning_rate_decay_factor libm_exp scale turns
          (loop_start learning_rate global_step) = Ok st' ->
        Train.learning_rate (Train.model st') = learning_rate
        /\ Train.decay_runs (Train.model st') = O
        /\ (length (Train.saved_at (Train.model st')) <= 1)%nat).
Proof.
  split.
  - intros steps_per_checkpoint turns st' Hn Hfew Hrun.
    apply flat_turns_keep_rate in Hrun; [done|done|].
    assert (Z.of_nat (length turns) / steps_per_checkpoint < 4)
      by (apply Z.div_lt_upper_bound; lia).
    cbn [loop_start Train.previous_losses Train.current_step length].
    rewrite !Z.add_0_l, Zdiv_0_l. lia.
  - intros turns.
    assert (forall st st',
               Train.previous_losses st = [] ->
               Loop.seq3seq_turns learning_rate_decay_factor libm_exp scale
                 turns st = Ok st' ->
               Train.learning_rate (Train.model st')
               = Train.learning_rate (Train.model st)
               /\ Train.decay_runs (Train.model st')
                  = Train.decay_runs (Train.model st)
               /\ (length (Train.saved_at (Train.model st'))
                   <= S (length (Train.saved_at (Train.model st))))%nat)
      as Hgen.
    { induction turns as [|[[random_number_01 loss_share] hour_passed]
                            turns IH];
        intros st st' Hempty Hrun; simpl in Hrun.
      - injection Hrun as <-. repeat split; lia.
      - unfold Train.seq3seq_iteration in Hrun.
        destruct (Train.choose_bucket scale random_number_01);
          simpl in Hrun; [|done].
        destruct hour_passed.
        + destruct (Train.checkpoint _ _ _) as [st2|e] eqn:Hcp;
            simpl in Hrun; [|done].
          injection Hrun as <-.
          pose proof (checkpoint_effect _ _ _ _ Hcp)
            as (_ & _ & _ & _ & Hs & _).
          apply checkpoint_short_history in Hcp as [Hr Hd].
          * rewrite Hr, Hd, Hs, length_app. simpl. repeat split; lia.
          * simpl. rewrite Hempty. simpl. lia.
        + apply IH in Hrun; [|done]. simpl in Hrun. done. }
    intros st' Hrun. apply Hgen in Hrun; [|done]. simpl in Hrun.
    destruct Hrun as (Hr & Hd & Hs). repeat split; try done.
Qed.
